(** * Indoor-media back end (backend/server.js): playlists, media and monitors

    A shallow embedding of the Express/Mongoose server in [backend/server.js].
    Every route callback becomes a function from the request data and the
    server state to a response and a new server state.  The server state holds
    the two MongoDB collections, the upload directory and the driver's
    ObjectId generator.  Exceptions raised inside a [try] block are values of
    an error monad, and each [catch] block is the handler given to
    [try_catch].

    Conventions.
    - The database is reachable: a driver call fails only for the reasons the
      code itself can cause (a value that does not cast to the schema type).
    - A JSON request body is an object; its fields hold any JSON values, and
      an absent field reads as [undefined].
    - One handler runs to completion before the next one starts. *)

From Stdlib Require Import Ascii String NArith DecimalString HexadecimalString DecimalN HexadecimalN.
From stdpp Require Import gmap strings list fin_maps.

Local Open Scope string_scope.
Local Open Scope list_scope.
Local Open Scope stdpp_scope.

(* ===================================================================== *)
(** ** ObjectId *)
(* ===================================================================== *)

(** A BSON ObjectId is a 12-byte value; it is kept as the number it denotes. *)
Abbreviation ObjectId := N (only parsing).

(** [String.prototype.padStart(24, '0')]. *)
Fixpoint zeros (k : nat) : string :=
  match k with
  | O => EmptyString
  | S k => String "0"%char (zeros k)
  end.

Definition hex (n : N) : string :=
  HexadecimalString.NilEmpty.string_of_uint (N.to_hex_uint n).

(** [ObjectId.prototype.toString()]: the lower-case hexadecimal form,
    24 characters for a 12-byte value. *)
Definition oid_toString (o : ObjectId) : string :=
  zeros (24 - String.length (hex o)) +:+ hex o.

(** The driver accepts both cases of the hexadecimal letters. *)
Definition hex_lower (c : ascii) : ascii :=
  let n := N_of_ascii c in
  if ((65 <=? n) && (n <=? 70))%N then ascii_of_N (n + 32) else c.

Fixpoint map_string (f : ascii → ascii) (s : string) : string :=
  match s with
  | EmptyString => EmptyString
  | String c s => String (f c) (map_string f s)
  end.

Definition parse_hex (s : string) : option N :=
  N.of_hex_uint <$> HexadecimalString.NilEmpty.uint_of_string (map_string hex_lower s).

(** Mongoose casts the string of a route parameter to the [_id] type of the
    schema.  The driver takes a string of 24 hexadecimal characters; for any
    other string the cast fails and the query rejects with a [CastError].
    (Drivers before bson 6 also took strings of 12 characters; the
    statements about ids that do not cast leave those strings out.) *)
Definition castObjectId (s : string) : option ObjectId :=
  if (String.length s =? 24)%nat then parse_hex s else None.

(** The number of UTF-16 code units of a character of the string, read off
    the byte of its UTF-8 form: a continuation byte adds none, the first byte
    of a four-byte form adds two. *)
Definition code_units (c : ascii) : nat :=
  let n := N_of_ascii c in
  if (n <? 128)%N then 1
  else if (n <? 192)%N then 0
  else if (n <? 240)%N then 1
  else 2.

(** [s.length], as JavaScript counts it. *)
Fixpoint js_length (s : string) : nat :=
  match s with
  | EmptyString => 0
  | String c s => code_units c + js_length s
  end.

(* ===================================================================== *)
(** ** [Date.now()] and [path.extname] *)
(* ===================================================================== *)

(** The string that [Date.now() + ...] puts in front: the decimal digits of
    the millisecond count. *)
Definition dec (n : N) : string :=
  DecimalString.NilEmpty.string_of_uint (N.to_uint n).

Definition is_slash (c : ascii) : bool := Ascii.eqb c "/"%char.
Definition is_dot (c : ascii) : bool := Ascii.eqb c "."%char.

Fixpoint drop_slashes (r : list ascii) : list ascii :=
  match r with
  | c :: r' => if is_slash c then drop_slashes r' else r
  | [] => []
  end.

Fixpoint until_slash (r : list ascii) : list ascii :=
  match r with
  | c :: r' => if is_slash c then [] else c :: until_slash r'
  | [] => []
  end.

(** The last component of a path, read from its end as [path.extname] does:
    trailing separators are skipped, the scan stops at the next separator.
    The result is the component in reverse. *)
Definition last_component_rev (path : string) : list ascii :=
  until_slash (drop_slashes (reverse (list_ascii_of_string path))).

(** Splits a reversed component at its first dot (the last dot of the
    component): the reversed text after the dot, and the reversed text
    before it. *)
Fixpoint split_dot (r : list ascii) : option (list ascii * list ascii) :=
  match r with
  | [] => None
  | c :: r' =>
      if is_dot c then Some ([], r')
      else match split_dot r' with
           | Some (ext, pre) => Some (c :: ext, pre)
           | None => None
           end
  end.

(** [path.extname] (POSIX): from the last dot of the last component to its
    end; empty when there is no dot, when the dot opens the component, and
    for the component [..]. *)
Definition extname (path : string) : string :=
  match split_dot (last_component_rev path) with
  | None => ""
  | Some (ext, pre) =>
      match pre, ext with
      | [], _ => ""
      | [c], [] => if is_dot c then "" else "."
      | _, _ => String "."%char (string_of_list_ascii (reverse ext))
      end
  end.


#[local] Set Warnings "-register-all".

(* ===================================================================== *)
(** ** Values, schemas and documents *)
(* ===================================================================== *)

(** The JavaScript values that reach the route callbacks: the values of a
    JSON body, [undefined] and ObjectIds.  A number is given by what
    [String(n)] shows and by whether it is zero, which is all that the
    callbacks can tell of it. *)
Inductive value : Type :=
| VUndefined
| VNull
| VBool (b : bool)
| VNumber (shown : string) (zero : bool)
| VString (s : string)
| VObjectId (o : ObjectId)
| VArray (xs : list value)
| VObject (fields : list (string * value)).

Coercion VString : string >-> value.

(** [!v] *)
Definition falsy (v : value) : bool :=
  match v with
  | VUndefined | VNull => true
  | VBool b => negb b
  | VNumber _ zero => zero
  | VString s => String.eqb s ""
  | _ => false
  end.

(** SameValueZero, the comparison of [Array.prototype.includes]: arrays and
    objects are compared by reference, so one of them is never equal to a
    value read from somewhere else. *)
Definition same_value_zero (a b : value) : bool :=
  match a, b with
  | VUndefined, VUndefined => true
  | VNull, VNull => true
  | VBool x, VBool y => Bool.eqb x y
  | VNumber x _, VNumber y _ => String.eqb x y
  | VString s, VString t => String.eqb s t
  | VObjectId o, VObjectId p => N.eqb o p
  | _, _ => false
  end.

(** [req.body] after [express.json()]: the fields of a JSON object. *)
Definition Body : Type := gmap string value.

(** The body [{ key: "text" }], written [{[ key := text ]}]. *)
#[global] Instance body_singleton : SingletonM string string Body :=
  λ key text, {[ key := VString text ]}.

(** [const { key } = req.body] *)
Definition field (body : Body) (key : string) : value :=
  match body !! key with
  | Some v => v
  | None => VUndefined
  end.

(** [object.key], for an object of a JSON body: it has each name once. *)
Fixpoint get_field (fields : list (string * value)) (key : string) : value :=
  match fields with
  | [] => VUndefined
  | (k, v) :: fields => if String.eqb k key then v else get_field fields key
  end.

(** [value._id && typeof value._id === 'string'], and then [value._id]. *)
Definition string_id (fields : list (string * value)) : option string :=
  match get_field fields "_id" with
  | VString s => if String.eqb s "" then None else Some s
  | _ => None
  end.

(** The cast of a value to the schema type [String]: [null] and
    [undefined] leave the path without a string, an object with a string
    [_id] gives that string, a value with a [toString] of its own gives what
    it shows, and an array or any other object does not cast ([None]). *)
Definition cast_String (v : value) : option (option string) :=
  match v with
  | VUndefined | VNull => Some None
  | VBool b => Some (Some (if b then "true" else "false"))
  | VNumber shown _ => Some (Some shown)
  | VString s => Some (Some s)
  | VObjectId o => Some (Some (oid_toString o))
  | VArray _ => None
  | VObject fields => Some <$> string_id fields
  end.

(** [playlistSchema]: [{ name: String, midias: [{ name: String, url: String }] }].
    Mongoose adds an [_id] to the document and to every element of [midias]. *)
Record Midia : Type := {
  md_id : ObjectId;
  md_name : option string;
  md_url : option string
}.

Record Playlist : Type := {
  pl_name : option string;
  pl_midias : list Midia
}.

(** A Playlist document as the callbacks hold it: its [_id], its fields,
    and whether a value given for a schema path failed to cast (Mongoose
    reports that when the document is saved). *)
Record PlaylistDoc : Type := {
  po_id : ObjectId;
  po_doc : Playlist;
  po_invalid : bool
}.

(** [monitorSchema]: [{ name: String, playlist: { type: ObjectId, ref: 'Playlist' } }]. *)
Record Monitor : Type := {
  mn_name : option string;
  mn_playlist : option ObjectId
}.

(** A Monitor document as the callbacks hold it: its [_id], the stored
    fields, the properties that an assignment creates on the object outside
    the schema, and whether a value assigned to a schema path failed to cast
    (Mongoose reports that when the document is saved). *)
Record MonitorDoc : Type := {
  mo_id : ObjectId;
  mo_doc : Monitor;
  mo_own : gmap string value;
  mo_invalid : bool
}.

Definition hydrate (oid : ObjectId) (m : Monitor) : MonitorDoc :=
  {| mo_id := oid; mo_doc := m; mo_own := ∅; mo_invalid := false |}.

(** [res.json(monitor)] serialises the [_id] and the stored fields only. *)
Definition toJSON (m : MonitorDoc) : ObjectId * Monitor := (mo_id m, mo_doc m).

Definition value_of {A} (f : A → value) (o : option A) : value :=
  match o with
  | Some a => f a
  | None => VUndefined
  end.

(** [monitor.key]: a schema path reads the stored field; any other name is
    an ordinary property of the object, [undefined] unless it was assigned. *)
Definition Monitor_get (monitor : MonitorDoc) (key : string) : value :=
  if String.eqb key "_id" then VObjectId (mo_id monitor)
  else if String.eqb key "name" then value_of VString (mn_name (mo_doc monitor))
  else if String.eqb key "playlist" then value_of VObjectId (mn_playlist (mo_doc monitor))
  else default VUndefined (mo_own monitor !! key).

Definition invalidate (monitor : MonitorDoc) : MonitorDoc :=
  {| mo_id := mo_id monitor; mo_doc := mo_doc monitor; mo_own := mo_own monitor;
     mo_invalid := true |}.

Definition with_name (monitor : MonitorDoc) (name : option string) : MonitorDoc :=
  {| mo_id := mo_id monitor;
     mo_doc := {| mn_name := name; mn_playlist := mn_playlist (mo_doc monitor) |};
     mo_own := mo_own monitor; mo_invalid := mo_invalid monitor |}.

Definition with_playlist (monitor : MonitorDoc) (playlist : option ObjectId) : MonitorDoc :=
  {| mo_id := mo_id monitor;
     mo_doc := {| mn_name := mn_name (mo_doc monitor); mn_playlist := playlist |};
     mo_own := mo_own monitor; mo_invalid := mo_invalid monitor |}.

(** [monitor.key = v]: a schema path casts the value to its type; any other
    name becomes a property of the object, which [save] and [toJSON] do not
    look at. *)
Definition Monitor_set (monitor : MonitorDoc) (key : string) (v : value) : MonitorDoc :=
  if String.eqb key "_id" then invalidate monitor
  else if String.eqb key "name" then
    match cast_String v with
    | Some name => with_name monitor name
    | None => invalidate monitor
    end
  else if String.eqb key "playlist" then
    match v with
    | VUndefined | VNull => with_playlist monitor None
    | VObjectId o => with_playlist monitor (Some o)
    | VString s =>
        match castObjectId s with
        | Some o => with_playlist monitor (Some o)
        | None => invalidate monitor
        end
    | _ => invalidate monitor
    end
  else {| mo_id := mo_id monitor; mo_doc := mo_doc monitor;
          mo_own := <[key := v]> (mo_own monitor); mo_invalid := mo_invalid monitor |}.

(* ===================================================================== *)
(** ** Server state and the monad of the [try] blocks *)
(* ===================================================================== *)

(** What a file holds: the bytes of the one write that made it, or what is
    left of several writes of one request that ran over each other. *)
Inductive content : Type :=
| Whole (written : string)
| Mixed (writes : list string).

Coercion Whole : string >-> content.

Record Server : Type := {
  playlists : gmap ObjectId Playlist;   (* collection of the Playlist model *)
  monitors : gmap ObjectId Monitor;     (* collection of the Monitor model *)
  disk : gmap string content;           (* files by path *)
  next_oid : N                          (* the driver's ObjectId generator *)
}.

Definition empty_server : Server :=
  {| playlists := ∅; monitors := ∅; disk := ∅; next_oid := 0 |}.

Inductive exn : Type :=
| CastError (v : string)     (* a string that is not an ObjectId *)
| TypeError                  (* a property read or a call on a value that has none *)
| ValidationError.           (* save of a document with a failed cast *)

Definition M (A : Type) : Type := Server → (exn + A) * Server.

Definition ret {A} (a : A) : M A := fun s => (inr a, s).

Definition throw {A} (e : exn) : M A := fun s => (inl e, s).

Definition bind {A B} (m : M A) (k : A → M B) : M B := fun s =>
  match m s with
  | (inr a, s') => k a s'
  | (inl e, s') => (inl e, s')
  end.

Notation "'do' x <- m ; k" := (bind m (fun x => k))
  (at level 10, x name, m at level 100, k at level 200).

Inductive Payload : Type :=
| JMessage (message : string)
| JMessageError (message : string) (error : exn)
| JPlaylistCreated (message : string) (playlist : ObjectId * Playlist)
| JMidias (midias : list Midia)
| JMonitor (monitor : ObjectId * Monitor)
| JMonitorDeleted (message : string) (deletedMonitor : ObjectId * Monitor)
| Text (text : string).

Record Response : Type := { status : nat; payload : Payload }.

(** A route callback: every path through it ends in a response. *)
Definition Handler : Type := Server → Response * Server.

(** [res.status(code).json(body)] as the value of a [try] block. *)
Definition respond (code : nat) (body : Payload) : M Response :=
  ret {| status := code; payload := body |}.

(** [try { body } catch (error) { handler }]: the catch blocks of this
    server only log and respond. *)
Definition try_catch (body : M Response) (handler : exn → Response) : Handler :=
  fun s =>
    match body s with
    | (inr r, s') => (r, s')
    | (inl error, s') => (handler error, s')
    end.

(* ===================================================================== *)
(** ** Mongoose models *)
(* ===================================================================== *)

(** [new ObjectId()]: the driver never hands out the same id twice. *)
Definition new_ObjectId : M ObjectId := fun s =>
  (inr (next_oid s),
   {| playlists := playlists s; monitors := monitors s; disk := disk s;
      next_oid := N.succ (next_oid s) |}).

(** The query casts its [_id] condition before it reaches the database. *)
Definition cast_id (id : string) : M ObjectId :=
  match castObjectId id with
  | Some oid => ret oid
  | None => throw (CastError id)
  end.

(** The name that a document gets from the value given for it, and
    whether the value failed to cast. *)
Definition name_of (v : value) : option string :=
  match cast_String v with
  | Some name => name
  | None => None
  end.

Definition name_invalid (v : value) : bool :=
  match cast_String v with
  | Some _ => false
  | None => true
  end.

(** A stored playlist as a document. *)
Definition hydrate_playlist (oid : ObjectId) (p : Playlist) : PlaylistDoc :=
  {| po_id := oid; po_doc := p; po_invalid := false |}.

(** [new Playlist({ name })]: [midias] defaults to the empty array. *)
Definition new_Playlist (name : value) : M PlaylistDoc :=
  do oid <- new_ObjectId;
  ret {| po_id := oid; po_doc := {| pl_name := name_of name; pl_midias := [] |};
         po_invalid := name_invalid name |}.

(** [save] validates first: a document with a failed cast is not stored. *)
Definition Playlist_save (playlist : PlaylistDoc) : M unit :=
  if po_invalid playlist then throw ValidationError
  else fun s =>
    (inr tt,
     {| playlists := <[po_id playlist := po_doc playlist]> (playlists s);
        monitors := monitors s; disk := disk s; next_oid := next_oid s |}).

Definition Playlist_findById (id : string) : M (option PlaylistDoc) :=
  do oid <- cast_id id;
  fun s => (inr (hydrate_playlist oid <$> playlists s !! oid), s).

Definition Playlist_findByIdAndDelete (id : string) : M (option PlaylistDoc) :=
  do oid <- cast_id id;
  fun s =>
    (inr (hydrate_playlist oid <$> playlists s !! oid),
     {| playlists := delete oid (playlists s); monitors := monitors s;
        disk := disk s; next_oid := next_oid s |}).

(** [new Monitor({ name })]: no [playlist] is given, the path stays unset. *)
Definition new_Monitor (name : value) : M MonitorDoc :=
  do oid <- new_ObjectId;
  ret {| mo_id := oid; mo_doc := {| mn_name := name_of name; mn_playlist := None |};
         mo_own := ∅; mo_invalid := name_invalid name |}.

Definition Monitor_save (monitor : MonitorDoc) : M unit :=
  if mo_invalid monitor then throw ValidationError
  else fun s =>
    (inr tt,
     {| playlists := playlists s;
        monitors := <[mo_id monitor := mo_doc monitor]> (monitors s);
        disk := disk s; next_oid := next_oid s |}).

Definition Monitor_findById (id : string) : M (option MonitorDoc) :=
  do oid <- cast_id id;
  fun s => (inr (hydrate oid <$> monitors s !! oid), s).

Definition Monitor_findByIdAndDelete (id : string) : M (option MonitorDoc) :=
  do oid <- cast_id id;
  fun s =>
    (inr (hydrate oid <$> monitors s !! oid),
     {| playlists := playlists s; monitors := delete oid (monitors s);
        disk := disk s; next_oid := next_oid s |}).

(* ===================================================================== *)
(** ** Multer disk storage *)
(* ===================================================================== *)

(** One part of the multipart field [midias], as it arrives. *)
Record Part : Type := { originalname : string; bytes : string }.

(** An entry of [req.files]. *)
Record File : Type := {
  file_originalname : string;
  file_filename : string;
  file_path : string
}.

(** [destination: cb(null, 'uploads/')] *)
Definition destination : string := "uploads/".

(** [filename: cb(null, Date.now() + path.extname(file.originalname))];
    [now] is what [Date.now()] returns when the callback runs. *)
Definition filename (now : N) (file : Part) : string :=
  dec now +:+ extname (originalname file).

(** What the storage engine reports of a part: its names and its path. *)
Definition file_of (now : N) (file : Part) : File :=
  {| file_originalname := originalname file;
     file_filename := filename now file;
     file_path := destination +:+ filename now file |}.

Definition write (path : string) (c : content) (s : Server) : Server :=
  {| playlists := playlists s; monitors := monitors s;
     disk := <[path := c]> (disk s); next_oid := next_oid s |}.

(** The storage engine writes the bytes to [destination/filename] with a
    plain write stream.  A write that no other write runs over leaves the
    bytes of the part, in place of a file that was at that path. *)
Definition store (now : N) (file : Part) (s : Server) : File * Server :=
  let f := file_of now file in
  (f, write (file_path f) (Whole (bytes file)) s).

(** A write to a path that an earlier part of the same request is still
    writing: the two streams run over each other, and the file is left with
    a mix of what they wrote. *)
Definition overlap (old : option content) (new : string) : content :=
  match old with
  | Some (Whole b) => Mixed [b; new]
  | Some (Mixed ws) => Mixed (ws ++ [new])
  | None => Whole new
  end.

(** One part of a request, given the paths that its earlier parts wrote. *)
Definition upload_part (written : list string) (now : N) (file : Part) (s : Server)
  : Server :=
  let f := file_of now file in
  if bool_decide (file_path f ∈ written)
  then write (file_path f) (overlap (disk s !! file_path f) (bytes file)) s
  else (store now file s).2.

Fixpoint upload_parts (written : list string) (parts : list (N * Part)) (s : Server)
  : list File * Server :=
  match parts with
  | [] => ([], s)
  | (now, file) :: parts =>
      let f := file_of now file in
      let '(fs, s2) :=
        upload_parts (file_path f :: written) parts (upload_part written now file s) in
      (f :: fs, s2)
  end.

(** [upload.array('midias')]: one write stream per part, and [req.files]
    lists the parts in the order of the request. *)
Definition upload_array (parts : list (N * Part)) (s : Server) : list File * Server :=
  upload_parts [] parts s.

(** The object literal [{ name: ..., url: ... }] before it becomes an
    element of [midias]. *)
Record MidiaItem : Type := { item_name : string; item_url : string }.

(** [playlist.midias = ...]: every element is cast to the element schema,
    which draws an [_id] for it.  A subdocument keeps the [_id] it has and
    the one drawn for it is dropped; an object literal gets the one drawn. *)
Fixpoint cast_midias (xs : list (Midia + MidiaItem)) : M (list Midia) :=
  match xs with
  | [] => ret []
  | inl midia :: xs =>
      do _ <- new_ObjectId;
      do rest <- cast_midias xs;
      ret (midia :: rest)
  | inr item :: xs =>
      do oid <- new_ObjectId;
      do rest <- cast_midias xs;
      ret ({| md_id := oid; md_name := Some (item_name item);
              md_url := Some (item_url item) |} :: rest)
  end.

(** [playlist.midias] *)
Definition midias_of (playlist : PlaylistDoc) : list Midia := pl_midias (po_doc playlist).

Definition set_midias (playlist : PlaylistDoc) (midias : list Midia) : PlaylistDoc :=
  {| po_id := po_id playlist;
     po_doc := {| pl_name := pl_name (po_doc playlist); pl_midias := midias |};
     po_invalid := po_invalid playlist |}.

(* ===================================================================== *)
(** ** Route callbacks *)
(* ===================================================================== *)

(** [app.post('/playlists', ...)] *)
Definition post_playlists (body : Body) : Handler :=
  let name := field body "name" in
  try_catch
    (do newPlaylist <- new_Playlist name;
     do _ <- Playlist_save newPlaylist;
     respond 201 (JPlaylistCreated "Playlist criada com sucesso"
                                   (po_id newPlaylist, po_doc newPlaylist)))
    (fun error => {| status := 500; payload := JMessage "Erro ao criar playlist" |}).

(** [app.delete('/playlists/:id', ...)] *)
Definition delete_playlists_id (id : string) : Handler :=
  try_catch
    (do _ <- Playlist_findByIdAndDelete id;
     respond 200 (JMessage "Playlist excluída com sucesso"))
    (fun error => {| status := 500; payload := JMessage "Erro ao excluir playlist" |}).

(** [req.files.map((file) => ({ name: file.originalname, url: `/uploads/${file.filename}` }))] *)
Definition midiasItems_of (files : list File) : list MidiaItem :=
  map (fun file => {| item_name := file_originalname file;
                      item_url := "/uploads/" +:+ file_filename file |}) files.

(** [app.post('/playlists/:id/midias', upload.array('midias'), ...)]: the
    middleware has stored the files when the callback starts.  [midias] of a
    document is always an array, so the conditional takes its [concat]
    branch. *)
Definition post_playlists_id_midias (id : string) (parts : list (N * Part)) : Handler :=
  fun s =>
    let '(files, s1) := upload_array parts s in
    try_catch
      (do playlist <- Playlist_findById id;
       match playlist with
       | None => respond 404 (JMessage "Playlist não encontrada")
       | Some playlist =>
           let midiasItems := midiasItems_of files in
           do midias <- cast_midias ((inl <$> midias_of playlist) ++ (inr <$> midiasItems));
           let playlist := set_midias playlist midias in
           do _ <- Playlist_save playlist;
           respond 200 (JMidias (midias_of playlist))
       end)
      (fun error => {| status := 500;
                       payload := JMessageError "Erro ao fazer upload de mídia" error |})
      s1.

(** [app.delete('/playlists/:playlistId/midias/:midiaId', ...)] *)
Definition delete_playlists_playlistId_midias_midiaId (playlistId midiaId : string) : Handler :=
  try_catch
    (do playlist <- Playlist_findById playlistId;
     match playlist with
     | None => respond 404 (Text "Playlist não encontrada")
     | Some playlist =>
         let playlist :=
           set_midias playlist
             (List.filter (fun midia => negb (String.eqb (oid_toString (md_id midia)) midiaId))
                          (midias_of playlist)) in
         do _ <- Playlist_save playlist;
         respond 200 (JMidias (midias_of playlist))
     end)
    (fun error => {| status := 500; payload := Text "Erro ao excluir mídia" |}).

(** [app.post('/monitores', ...)] *)
Definition post_monitores (body : Body) : Handler :=
  let name := field body "name" in
  try_catch
    (do newMonitor <- new_Monitor name;
     do _ <- Monitor_save newMonitor;
     respond 201 (JMonitor (toJSON newMonitor)))
    (fun error => {| status := 500; payload := JMessage "Erro ao criar monitor" |}).

(** [app.delete('/monitores/:id', ...)] *)
Definition delete_monitores_id (id : string) : Handler :=
  try_catch
    (do deletedMonitor <- Monitor_findByIdAndDelete id;
     match deletedMonitor with
     | None => respond 404 (JMessage "Monitor não encontrado")
     | Some deletedMonitor =>
         respond 200 (JMonitorDeleted "Monitor excluído com sucesso" (toJSON deletedMonitor))
     end)
    (fun error => {| status := 500; payload := JMessage "Erro ao excluir monitor" |}).

(** [receiver.includes(x)] for the receivers that a property of a Monitor
    document can be here, an array or a value without the method: reading a
    property of [undefined] throws, and so does calling what is not a
    function. *)
Definition includes (receiver x : value) : M bool :=
  match receiver with
  | VArray xs => ret (existsb (same_value_zero x) xs)
  | _ => throw TypeError
  end.

(** [monitor.key.push(x)]: the array held by the property grows in place. *)
Definition push (monitor : MonitorDoc) (key : string) (x : value) : M MonitorDoc :=
  match Monitor_get monitor key with
  | VArray xs => ret (Monitor_set monitor key (VArray (xs ++ [x])))
  | _ => throw TypeError
  end.

(** [app.post('/monitores/:monitorId/playlists', ...)] *)
Definition post_monitores_monitorId_playlists (monitorId : string) (body : Body) : Handler :=
  let playlistId := field body "playlistId" in
  if falsy playlistId then
    fun s => ({| status := 400; payload := JMessage "O campo playlistId é obrigatório." |}, s)
  else
    try_catch
      (do monitor <- Monitor_findById monitorId;
       match monitor with
       | None => respond 404 (JMessage "Monitor não encontrado.")
       | Some monitor =>
           do linked <- includes (Monitor_get monitor "playlists") playlistId;
           if linked then
             respond 400 (JMessage "A playlist já está associada a este monitor.")
           else
             do monitor <- push monitor "playlists" playlistId;
             do _ <- Monitor_save monitor;
             respond 200 (JMonitor (toJSON monitor))
       end)
      (fun error => {| status := 500;
                       payload := JMessageError "Erro ao associar playlist" error |}).

(** [app.put('/monitores/:monitorId/playlists', ...)] *)
Definition put_monitores_monitorId_playlists (monitorId : string) (body : Body) : Handler :=
  let playlistId := field body "playlistId" in
  try_catch
    (do monitor <- Monitor_findById monitorId;
     match monitor with
     | None => respond 404 (Text "Monitor não encontrado")
     | Some monitor =>
         let monitor := Monitor_set monitor "playlistId" playlistId in
         do _ <- Monitor_save monitor;
         respond 200 (JMonitor (toJSON monitor))
     end)
    (fun error => {| status := 500; payload := Text "Erro ao atualizar monitor" |}).

(** [Playlist.find()]: every document of the collection.  The order of a
    query without a sort is the database's; no statement depends on it. *)
Definition Playlist_find : M (list PlaylistDoc) := fun s =>
  (inr ((λ kv, hydrate_playlist kv.1 kv.2) <$> map_to_list (playlists s)), s).

(** The bodies that [GET /playlists] answers with. *)
Inductive ListPayload : Type :=
| JPlaylists (playlists : list (ObjectId * Playlist))
| JListMessage (message : string).

Record ListResponse : Type := { list_status : nat; list_payload : ListPayload }.

(** [app.get('/playlists', ...)] *)
Definition get_playlists : Server → ListResponse * Server := fun s =>
  match
    (do playlists <- Playlist_find;
     ret {| list_status := 200;
            list_payload := JPlaylists ((λ d, (po_id d, po_doc d)) <$> playlists) |}) s
  with
  | (inr r, s') => (r, s')
  | (inl error, s') =>
      ({| list_status := 500; list_payload := JListMessage "Erro ao buscar playlists" |}, s')
  end.

(** The routes that change the state ([app.post], [app.delete], [app.put]). *)
Inductive Request : Type :=
| POST_playlists (body : Body)
| DELETE_playlists_id (id : string)
| POST_playlists_id_midias (id : string) (parts : list (N * Part))
| DELETE_playlists_playlistId_midias_midiaId (playlistId midiaId : string)
| POST_monitores (body : Body)
| DELETE_monitores_id (id : string)
| POST_monitores_monitorId_playlists (monitorId : string) (body : Body)
| PUT_monitores_monitorId_playlists (monitorId : string) (body : Body).

Definition app (req : Request) : Handler :=
  match req with
  | POST_playlists body => post_playlists body
  | DELETE_playlists_id id => delete_playlists_id id
  | POST_playlists_id_midias id parts => post_playlists_id_midias id parts
  | DELETE_playlists_playlistId_midias_midiaId playlistId midiaId =>
      delete_playlists_playlistId_midias_midiaId playlistId midiaId
  | POST_monitores body => post_monitores body
  | DELETE_monitores_id id => delete_monitores_id id
  | POST_monitores_monitorId_playlists monitorId body =>
      post_monitores_monitorId_playlists monitorId body
  | PUT_monitores_monitorId_playlists monitorId body =>
      put_monitores_monitorId_playlists monitorId body
  end.

(** The state after a sequence of requests. *)
Definition serve (reqs : list Request) (s : Server) : Server :=
  foldl (λ s req, (app req s).2) s reqs.

(* ===================================================================== *)
(** ** Vocabulary of the statements *)
(* ===================================================================== *)

(** Every id in the database came out of the generator, and the media items
    of a playlist have distinct ids. *)
Record consistent (s : Server) : Prop := {
  playlist_ids_used : ∀ oid p, playlists s !! oid = Some p → (oid < next_oid s)%N;
  media_ids_used :
    ∀ oid p, playlists s !! oid = Some p →
      Forall (λ midia, (md_id midia < next_oid s)%N) (pl_midias p);
  media_ids_distinct :
    ∀ oid p, playlists s !! oid = Some p → NoDup (md_id <$> pl_midias p);
  monitor_ids_used : ∀ oid m, monitors s !! oid = Some m → (oid < next_oid s)%N
}.

(** The media item is the one that the route parameter [midiaId] names. *)
Definition has_id (midiaId : string) (midia : Midia) : Prop :=
  oid_toString (md_id midia) = midiaId.

(** The subdocuments that a list of object literals becomes when the ids
    are drawn from [oid] on. *)
Fixpoint subdocuments (oid : N) (items : list MidiaItem) : list Midia :=
  match items with
  | [] => []
  | item :: items =>
      {| md_id := oid; md_name := Some (item_name item); md_url := Some (item_url item) |}
        :: subdocuments (N.succ oid) items
  end.

(** A string without a dot. *)
Fixpoint dotless (s : string) : Prop :=
  match s with
  | EmptyString => True
  | String c s => c ≠ "."%char ∧ dotless s
  end.

(** What [upload.array] makes of one part of the request. *)
Definition uploaded (part : N * Part) (midia : Midia) : Prop :=
  md_name midia = Some (originalname part.2) ∧
  md_url midia = Some ("/uploads/" +:+ filename part.1 part.2).

(* ===================================================================== *)
(** ** A scenario: playlist "Lobby", monitor "Lobby Screen" *)
(* ===================================================================== *)

Definition id0 : string := "000000000000000000000000".
Definition id1 : string := "000000000000000000000001".
Definition id2 : string := "000000000000000000000002".

Definition a_png : Part := {| originalname := "a.png"; bytes := "bytes of a" |}.
Definition b_png : Part := {| originalname := "b.png"; bytes := "bytes of b" |}.

(** [POST /playlists {name: "Lobby"}] on an empty database. *)
Definition s_lobby : Server :=
  (post_playlists {[ "name" := "Lobby" ]} empty_server).2.

(** Then [POST /monitores {name: "Lobby Screen"}]. *)
Definition s_screen : Server :=
  (post_monitores {[ "name" := "Lobby Screen" ]} s_lobby).2.

(** Then two uploads to the playlist, one millisecond apart. *)
Definition s_media : Server :=
  (post_playlists_id_midias id0 [(1700000000000%N, a_png); (1700000000001%N, b_png)]
     s_screen).2.

(** The two media items of the playlist after the uploads. *)
Definition a_item : Midia :=
  {| md_id := 2%N; md_name := Some "a.png";
     md_url := Some "/uploads/1700000000000.png" |}.
Definition b_item : Midia :=
  {| md_id := 3%N; md_name := Some "b.png";
     md_url := Some "/uploads/1700000000001.png" |}.

(** A database in which the monitor's [playlist] field refers to the
    playlist. *)
Definition s_referenced : Server :=
  {| playlists := playlists s_media;
     monitors := {[ 1%N := {| mn_name := Some "Lobby Screen"; mn_playlist := Some 0%N |} ]};
     disk := disk s_media;
     next_oid := next_oid s_media |}.

(* ===================================================================== *)
(** ** Running the callbacks *)
(* ===================================================================== *)

Lemma server_eta s :
  {| playlists := playlists s; monitors := monitors s; disk := disk s;
     next_oid := next_oid s |} = s.
Proof. by destruct s. Qed.

Ltac run :=
  unfold try_catch, respond, Playlist_findById, Playlist_findByIdAndDelete,
    Monitor_findById, Monitor_findByIdAndDelete, Playlist_save, Monitor_save,
    new_Playlist, new_Monitor, new_ObjectId, cast_id, bind, ret, throw;
  simpl.

(** Creating a document draws its id; the document is stored when the name
    casts, and the catch block answers when it does not. *)
Lemma post_playlists_run body s :
  post_playlists body s =
    match cast_String (field body "name") with
    | Some name =>
        let new := {| pl_name := name; pl_midias := [] |} in
        ({| status := 201;
            payload := JPlaylistCreated "Playlist criada com sucesso" (next_oid s, new) |},
         {| playlists := <[next_oid s := new]> (playlists s); monitors := monitors s;
            disk := disk s; next_oid := N.succ (next_oid s) |})
    | None =>
        ({| status := 500; payload := JMessage "Erro ao criar playlist" |},
         {| playlists := playlists s; monitors := monitors s;
            disk := disk s; next_oid := N.succ (next_oid s) |})
    end.
Proof.
  unfold post_playlists, new_Playlist, Playlist_save, name_of, name_invalid.
  run. by destruct (cast_String (field body "name")).
Qed.

Lemma post_monitores_run body s :
  post_monitores body s =
    match cast_String (field body "name") with
    | Some name =>
        let new := {| mn_name := name; mn_playlist := None |} in
        ({| status := 201; payload := JMonitor (next_oid s, new) |},
         {| playlists := playlists s; monitors := <[next_oid s := new]> (monitors s);
            disk := disk s; next_oid := N.succ (next_oid s) |})
    | None =>
        ({| status := 500; payload := JMessage "Erro ao criar monitor" |},
         {| playlists := playlists s; monitors := monitors s;
            disk := disk s; next_oid := N.succ (next_oid s) |})
    end.
Proof.
  unfold post_monitores, new_Monitor, Monitor_save, name_of, name_invalid.
  run. by destruct (cast_String (field body "name")).
Qed.

Section Queries.
Context (id : string) (s : Server).

Lemma delete_playlists_id_cast oid :
  castObjectId id = Some oid →
  delete_playlists_id id s =
    ({| status := 200; payload := JMessage "Playlist excluída com sucesso" |},
     {| playlists := delete oid (playlists s); monitors := monitors s;
        disk := disk s; next_oid := next_oid s |}).
Proof. intros Hc. unfold delete_playlists_id. run. by rewrite Hc. Qed.

Lemma delete_playlists_id_malformed :
  castObjectId id = None →
  delete_playlists_id id s =
    ({| status := 500; payload := JMessage "Erro ao excluir playlist" |}, s).
Proof. intros Hc. unfold delete_playlists_id. run. by rewrite Hc. Qed.

Lemma delete_monitores_id_absent oid :
  castObjectId id = Some oid → monitors s !! oid = None →
  delete_monitores_id id s =
    ({| status := 404; payload := JMessage "Monitor não encontrado" |}, s).
Proof.
  intros Hc Hm. unfold delete_monitores_id. run. rewrite Hc, Hm. simpl.
  by rewrite delete_id, server_eta.
Qed.

Lemma delete_monitores_id_present oid m :
  castObjectId id = Some oid → monitors s !! oid = Some m →
  delete_monitores_id id s =
    ({| status := 200;
        payload := JMonitorDeleted "Monitor excluído com sucesso" (oid, m) |},
     {| playlists := playlists s; monitors := delete oid (monitors s);
        disk := disk s; next_oid := next_oid s |}).
Proof. intros Hc Hm. unfold delete_monitores_id. run. by rewrite Hc, Hm. Qed.

Lemma delete_monitores_id_malformed :
  castObjectId id = None →
  delete_monitores_id id s =
    ({| status := 500; payload := JMessage "Erro ao excluir monitor" |}, s).
Proof. intros Hc. unfold delete_monitores_id. run. by rewrite Hc. Qed.
End Queries.

Section Monitors.
Context (monitorId : string) (body : Body) (s : Server).

Lemma field_absent key : body !! key = None → field body key = VUndefined.
Proof. unfold field. by intros ->. Qed.

Lemma Monitor_get_hydrate_playlists oid m :
  Monitor_get (hydrate oid m) "playlists" = VUndefined.
Proof. reflexivity. Qed.

(** On a monitor that exists, linking reads [monitor.playlists], which the
    schema does not have: the callback ends in its [catch] block. *)
Lemma link_existing_monitor_throws oid m :
  castObjectId monitorId = Some oid → monitors s !! oid = Some m →
  falsy (field body "playlistId") = false →
  post_monitores_monitorId_playlists monitorId body s =
    ({| status := 500; payload := JMessageError "Erro ao associar playlist" TypeError |}, s).
Proof.
  intros Hc Hm Hp. unfold post_monitores_monitorId_playlists.
  rewrite Hp. run. rewrite Hc, Hm. simpl. reflexivity.
Qed.

(** Whatever the request, linking does not answer 200. *)
Lemma link_never_answers_200 :
  status (post_monitores_monitorId_playlists monitorId body s).1 ≠ 200.
Proof.
  unfold post_monitores_monitorId_playlists.
  destruct (falsy (field body "playlistId")) eqn:Hf; [simpl; discriminate|].
  run. destruct (castObjectId monitorId) as [oid|]; simpl; [|discriminate].
  destruct (monitors s !! oid); simpl; discriminate.
Qed.

(** On a monitor that exists, the overwrite assigns [monitor.playlistId],
    which the schema does not have either: [save] stores the same fields
    again and the response shows them. *)
Lemma relink_existing_monitor_unchanged oid m :
  castObjectId monitorId = Some oid → monitors s !! oid = Some m →
  put_monitores_monitorId_playlists monitorId body s =
    ({| status := 200; payload := JMonitor (oid, m) |}, s).
Proof.
  intros Hc Hm. unfold put_monitores_monitorId_playlists.
  run. rewrite Hc, Hm. simpl. by rewrite insert_id, server_eta.
Qed.
End Monitors.

(** The scenario: playlist 0 and monitor 1 exist, playlist 1 and monitor 0
    do not. *)
Lemma s_screen_documents :
  castObjectId id0 = Some 0%N ∧ castObjectId id1 = Some 1%N ∧
  playlists s_screen !! 0%N = Some {| pl_name := Some "Lobby"; pl_midias := [] |} ∧
  playlists s_screen !! 1%N = None ∧
  monitors s_screen !! 0%N = None ∧
  monitors s_screen !! 1%N = Some {| mn_name := Some "Lobby Screen"; mn_playlist := None |}.
Proof. by vm_compute. Qed.

(* ===================================================================== *)
(** ** Deleting playlists and monitors *)
(* ===================================================================== *)

(** C5, as stated, fails for an id that is not an ObjectId: the query
    rejects with a CastError and both callbacks answer 500, neither 200 nor
    404. *)
Lemma delete_malformed_id_is_server_error :
  status (delete_playlists_id "abc" empty_server).1 = 500 ∧
  status (delete_playlists_id "abc" empty_server).1 ≠ 200 ∧
  empty_server.(monitors) !! 0%N = None ∧
  status (delete_monitores_id "abc" empty_server).1 = 500 ∧
  status (delete_monitores_id "abc" empty_server).1 ≠ 404.
Proof. vm_compute. repeat split; discriminate. Qed.

(** C5 (amended).  For an id that is the hexadecimal string of an ObjectId,
    deleting a playlist answers 200 whether or not a playlist has that id,
    the collection no longer has it, and nothing changes when it was absent;
    deleting a monitor answers 404 and changes nothing when no monitor has
    that id, and answers 200 with the deleted monitor when one has.  For a
    string that is no such hexadecimal string and is not 12 characters long,
    both answer 500 and change nothing. *)
Theorem deletion_differs_by_entity (id : string) (s : Server) :
  match castObjectId id with
  | Some oid =>
      (delete_playlists_id id s).1 =
        {| status := 200; payload := JMessage "Playlist excluída com sucesso" |} ∧
      playlists (delete_playlists_id id s).2 = delete oid (playlists s) ∧
      match playlists s !! oid with
      | None => (delete_playlists_id id s).2 = s
      | Some _ => playlists (delete_playlists_id id s).2 !! oid = None
      end ∧
      match monitors s !! oid with
      | None =>
          delete_monitores_id id s =
            ({| status := 404; payload := JMessage "Monitor não encontrado" |}, s)
      | Some m =>
          (delete_monitores_id id s).1 =
            {| status := 200;
               payload := JMonitorDeleted "Monitor excluído com sucesso" (oid, m) |} ∧
          monitors (delete_monitores_id id s).2 = delete oid (monitors s)
      end
  | None =>
      js_length id ≠ 12 →
      delete_playlists_id id s =
        ({| status := 500; payload := JMessage "Erro ao excluir playlist" |}, s) ∧
      delete_monitores_id id s =
        ({| status := 500; payload := JMessage "Erro ao excluir monitor" |}, s)
  end.
Proof.
  destruct (castObjectId id) as [oid|] eqn:Hc.
  - rewrite (delete_playlists_id_cast _ _ _ Hc). simpl.
    split; [done|]. split; [done|]. split.
    + destruct (playlists s !! oid) eqn:Hp.
      * apply lookup_delete_eq.
      * by rewrite delete_id, server_eta.
    + destruct (monitors s !! oid) as [m|] eqn:Hm.
      * by rewrite (delete_monitores_id_present _ _ _ _ Hc Hm).
      * by apply (delete_monitores_id_absent _ _ oid).
  - intros _. split.
    + by apply delete_playlists_id_malformed.
    + by apply delete_monitores_id_malformed.
Qed.

Lemma deletion_differs_by_entity_witness :
  ((delete_playlists_id id0 s_screen).1 =
     {| status := 200; payload := JMessage "Playlist excluída com sucesso" |} ∧
   playlists (delete_playlists_id id0 s_screen).2 !! 0%N = None) ∧
  ((delete_playlists_id id1 s_screen).1 =
     {| status := 200; payload := JMessage "Playlist excluída com sucesso" |} ∧
   (delete_playlists_id id1 s_screen).2 = s_screen) ∧
  delete_monitores_id id0 s_screen =
    ({| status := 404; payload := JMessage "Monitor não encontrado" |}, s_screen) ∧
  (delete_monitores_id id1 s_screen).1 =
    {| status := 200;
       payload := JMonitorDeleted "Monitor excluído com sucesso"
                    (1%N, {| mn_name := Some "Lobby Screen"; mn_playlist := None |}) |} ∧
  delete_playlists_id "abc" s_screen =
    ({| status := 500; payload := JMessage "Erro ao excluir playlist" |}, s_screen) ∧
  delete_monitores_id "abc" s_screen =
    ({| status := 500; payload := JMessage "Erro ao excluir monitor" |}, s_screen).
Proof.
  destruct s_screen_documents as (Hc0 & Hc1 & Hp0 & Hp1 & Hm0 & Hm1).
  pose proof (deletion_differs_by_entity id0 s_screen) as H0.
  pose proof (deletion_differs_by_entity id1 s_screen) as H1.
  pose proof (deletion_differs_by_entity "abc" s_screen) as Habc.
  rewrite Hc0 in H0. rewrite Hc1 in H1. cbv beta iota in H0, H1.
  rewrite Hp0, Hm0 in H0. rewrite Hp1, Hm1 in H1.
  change (castObjectId "abc") with (@None N) in Habc. cbv beta iota in Habc.
  assert (js_length "abc" ≠ 12) as Hlen by (by vm_compute).
  destruct (Habc Hlen) as [Hpl Hmn].
  destruct H0 as (Hr0 & _ & Hgone & Hnf). destruct H1 as (Hr1 & _ & Hsame & Hdel & _).
  done.
Defined.

(** C9.  Deleting a playlist leaves the collection of monitors as it was,
    whatever the id; a monitor whose [playlist] field refers to the deleted
    playlist keeps the reference, which no longer resolves. *)
Theorem delete_playlist_keeps_monitors (id : string) (s : Server) :
  monitors (delete_playlists_id id s).2 = monitors s ∧
  ∀ oid mid m,
    castObjectId id = Some oid →
    monitors s !! mid = Some m → mn_playlist m = Some oid →
    monitors (delete_playlists_id id s).2 !! mid = Some m ∧
    playlists (delete_playlists_id id s).2 !! oid = None.
Proof.
  split.
  - destruct (castObjectId id) as [oid|] eqn:Hc.
    + by rewrite (delete_playlists_id_cast _ _ _ Hc).
    + by rewrite (delete_playlists_id_malformed _ _ Hc).
  - intros oid mid m Hc Hm _. rewrite (delete_playlists_id_cast _ _ _ Hc). simpl.
    split; [done|]. apply lookup_delete_eq.
Qed.

Lemma delete_playlist_keeps_monitors_witness :
  playlists s_referenced !! 0%N ≠ None ∧
  monitors (delete_playlists_id id0 s_referenced).2 !! 1%N =
    Some {| mn_name := Some "Lobby Screen"; mn_playlist := Some 0%N |} ∧
  playlists (delete_playlists_id id0 s_referenced).2 !! 0%N = None.
Proof.
  split; [by vm_compute|].
  apply (proj2 (delete_playlist_keeps_monitors id0 s_referenced) 0%N 1%N);
    by vm_compute.
Defined.

(* ===================================================================== *)
(** ** Creating monitors, linking and relinking *)
(* ===================================================================== *)

(** C10.  A body without [name] still creates a monitor: the answer is 201
    with the new document, which is stored under a new id with no name and
    no playlist, and no other document changes. *)
Theorem create_monitor_without_name (body : Body) (s : Server) :
  body !! "name" = None →
  (post_monitores body s).1 =
    {| status := 201;
       payload := JMonitor (next_oid s, {| mn_name := None; mn_playlist := None |}) |} ∧
  monitors (post_monitores body s).2 !! next_oid s =
    Some {| mn_name := None; mn_playlist := None |} ∧
  (∀ oid, oid ≠ next_oid s →
     monitors (post_monitores body s).2 !! oid = monitors s !! oid) ∧
  playlists (post_monitores body s).2 = playlists s.
Proof.
  intros Hb. unfold post_monitores. rewrite (field_absent _ _ Hb). run.
  split; [done|]. split; [apply lookup_insert_eq|]. split; [|done].
  intros oid Hne. by apply lookup_insert_ne.
Qed.

Lemma create_monitor_without_name_witness :
  (post_monitores ∅ s_lobby).1 =
    {| status := 201;
       payload := JMonitor (1%N, {| mn_name := None; mn_playlist := None |}) |} ∧
  monitors (post_monitores ∅ s_lobby).2 !! 1%N =
    Some {| mn_name := None; mn_playlist := None |}.
Proof.
  destruct (create_monitor_without_name ∅ s_lobby) as (H1 & H2 & _).
  - reflexivity.
  - split; [exact H1 | exact H2].
Defined.

(** C8.  Without [playlistId] in the body the link callback answers 400
    whatever the monitor id and the state, and the state is the one it
    started from: no monitor is looked up or changed. *)
Theorem link_requires_playlistId (monitorId : string) (body : Body) (s : Server) :
  body !! "playlistId" = None →
  post_monitores_monitorId_playlists monitorId body s =
    ({| status := 400; payload := JMessage "O campo playlistId é obrigatório." |}, s).
Proof.
  intros Hb. unfold post_monitores_monitorId_playlists.
  by rewrite (field_absent _ _ Hb).
Qed.

Lemma link_requires_playlistId_witness :
  post_monitores_monitorId_playlists id1 {[ "name" := "Lobby" ]} s_screen =
    ({| status := 400; payload := JMessage "O campo playlistId é obrigatório." |}, s_screen).
Proof. apply link_requires_playlistId. reflexivity. Defined.

(** C1 (the code at a failing input).  The monitor "Lobby Screen" exists and
    the body names the playlist "Lobby", which is not linked to it: the
    callback answers 500 and the monitor is stored as before, without the
    playlist. *)
Theorem link_on_existing_monitor_is_server_error :
  monitors s_screen !! 1%N = Some {| mn_name := Some "Lobby Screen"; mn_playlist := None |} ∧
  post_monitores_monitorId_playlists id1 {[ "playlistId" := id0 ]} s_screen =
    ({| status := 500; payload := JMessageError "Erro ao associar playlist" TypeError |},
     s_screen).
Proof.
  split; [by vm_compute|].
  apply (link_existing_monitor_throws _ _ _ 1%N
           {| mn_name := Some "Lobby Screen"; mn_playlist := None |}); by vm_compute.
Qed.

(** C2 (the code at a failing input).  The monitor "Lobby Screen" exists and
    the body names the playlist "Lobby": the callback answers 200 with the
    monitor as it was, and the stored monitor still has no playlist. *)
Theorem relink_on_existing_monitor_stores_nothing :
  put_monitores_monitorId_playlists id1 {[ "playlistId" := id0 ]} s_screen =
    ({| status := 200;
        payload := JMonitor (1%N, {| mn_name := Some "Lobby Screen"; mn_playlist := None |}) |},
     s_screen).
Proof.
  apply (relink_existing_monitor_unchanged _ _ _ 1%N
           {| mn_name := Some "Lobby Screen"; mn_playlist := None |}); by vm_compute.
Qed.

(* ===================================================================== *)
(** ** Identifiers as strings *)
(* ===================================================================== *)

Lemma uint_of_string_zeros k s d :
  HexadecimalString.NilEmpty.uint_of_string s = Some d →
  HexadecimalString.NilEmpty.uint_of_string (zeros k +:+ s) =
    Some (Nat.iter k Hexadecimal.D0 d).
Proof. intros Hs. induction k as [|k IH]; simpl; [done|]. by rewrite IH. Qed.

Lemma of_hex_uint_zeros k d :
  N.of_hex_uint (Nat.iter k Hexadecimal.D0 d) = N.of_hex_uint d.
Proof. induction k as [|k IH]; simpl; [done|]. by rewrite <- IH. Qed.

(** Reading the string of an id back gives the id. *)
Lemma oid_toString_read o :
  N.of_hex_uint <$> HexadecimalString.NilEmpty.uint_of_string (oid_toString o) = Some o.
Proof.
  unfold oid_toString, hex.
  rewrite (uint_of_string_zeros _ _ _ (HexadecimalString.NilEmpty.usu _)). simpl.
  by rewrite of_hex_uint_zeros, HexadecimalN.Unsigned.of_to.
Qed.

Lemma oid_toString_inj a b : oid_toString a = oid_toString b → a = b.
Proof.
  intros H. pose proof (oid_toString_read a) as Ha.
  rewrite H, oid_toString_read in Ha. congruence.
Qed.

Lemma hex_lower_string_of_uint d :
  map_string hex_lower (HexadecimalString.NilEmpty.string_of_uint d) =
    HexadecimalString.NilEmpty.string_of_uint d.
Proof. induction d; simpl; by rewrite ?IHd. Qed.

Lemma hex_lower_zeros k s :
  map_string hex_lower (zeros k +:+ s) = zeros k +:+ map_string hex_lower s.
Proof. induction k as [|k IH]; simpl; [done|]. by rewrite IH. Qed.

(** The id of a document, written as in its JSON, is a route parameter that
    casts back to the id. *)
Lemma castObjectId_toString o :
  String.length (oid_toString o) = 24 → castObjectId (oid_toString o) = Some o.
Proof.
  intros Hlen. unfold castObjectId, parse_hex. rewrite Hlen. simpl.
  unfold oid_toString at 1. rewrite hex_lower_zeros. unfold hex.
  rewrite hex_lower_string_of_uint. apply oid_toString_read.
Qed.

(* ===================================================================== *)
(** ** Removing a media item *)
(* ===================================================================== *)

Section Filter.
Context {A : Type} (keep : A → bool).

Lemma filter_keeps_all (l : list A) :
  Forall (λ x, keep x = true) l → List.filter keep l = l.
Proof.
  induction 1 as [|x l Hx _ IH]; simpl; [done|]. by rewrite Hx, IH.
Qed.

Lemma filter_is_sublist (l : list A) : List.filter keep l `sublist_of` l.
Proof.
  induction l as [|x l IH]; simpl; [constructor|].
  destruct (keep x); by constructor.
Qed.

Lemma elem_of_filter_bool (l : list A) x :
  x ∈ List.filter keep l ↔ x ∈ l ∧ keep x = true.
Proof. rewrite !list_elem_of_In. apply filter_In. Qed.
End Filter.

(** The test of the callback, [midia._id.toString() !== midiaId]. *)
Lemma keeps_iff midiaId midia :
  negb (String.eqb (oid_toString (md_id midia)) midiaId) = true ↔ ¬ has_id midiaId midia.
Proof.
  unfold has_id. destruct (String.eqb_spec (oid_toString (md_id midia)) midiaId);
    simpl; naive_solver.
Qed.

Lemma remove_media_found playlistId midiaId s oid playlist :
  castObjectId playlistId = Some oid → playlists s !! oid = Some playlist →
  delete_playlists_playlistId_midias_midiaId playlistId midiaId s =
    let kept :=
      List.filter (λ midia, negb (String.eqb (oid_toString (md_id midia)) midiaId))
                  (pl_midias playlist) in
    ({| status := 200; payload := JMidias kept |},
     {| playlists :=
          <[oid := {| pl_name := pl_name playlist; pl_midias := kept |}]> (playlists s);
        monitors := monitors s; disk := disk s; next_oid := next_oid s |}).
Proof.
  intros Hc Hp. unfold delete_playlists_playlistId_midias_midiaId.
  run. by rewrite Hc, Hp.
Qed.

Lemma remove_media_not_found playlistId midiaId s oid :
  castObjectId playlistId = Some oid → playlists s !! oid = None →
  delete_playlists_playlistId_midias_midiaId playlistId midiaId s =
    ({| status := 404; payload := Text "Playlist não encontrada" |}, s).
Proof.
  intros Hc Hp. unfold delete_playlists_playlistId_midias_midiaId.
  run. by rewrite Hc, Hp.
Qed.

Lemma remove_media_malformed playlistId midiaId s :
  castObjectId playlistId = None →
  delete_playlists_playlistId_midias_midiaId playlistId midiaId s =
    ({| status := 500; payload := Text "Erro ao excluir mídia" |}, s).
Proof.
  intros Hc. unfold delete_playlists_playlistId_midias_midiaId.
  run. by rewrite Hc.
Qed.

(** With distinct ids in the list, filtering out the id of one element
    removes that element and nothing else. *)
Lemma filter_out_one midiaId (before : list Midia) midia (after : list Midia) :
  has_id midiaId midia →
  NoDup (md_id <$> (before ++ midia :: after)) →
  List.filter (λ midia, negb (String.eqb (oid_toString (md_id midia)) midiaId))
              (before ++ midia :: after) = before ++ after.
Proof.
  intros Hid Hnd. rewrite List.filter_app. simpl.
  assert (negb (String.eqb (oid_toString (md_id midia)) midiaId) = false) as ->.
  { apply not_true_iff_false. rewrite keeps_iff. naive_solver. }
  rewrite fmap_app, fmap_cons in Hnd.
  apply NoDup_app in Hnd as (_ & Hba & Ha).
  apply NoDup_cons in Ha as [Ha _].
  f_equal; apply filter_keeps_all, Forall_forall; intros x Hx;
    apply keeps_iff; unfold has_id in *; intros Hx'.
  - apply (Hba (md_id x)); [by apply list_elem_of_fmap_2|].
    rewrite <- Hid in Hx'. apply oid_toString_inj in Hx'. rewrite Hx'. set_solver.
  - apply Ha. rewrite <- Hid in Hx'. apply oid_toString_inj in Hx'.
    rewrite <- Hx'. by apply list_elem_of_fmap_2.
Qed.

(** C4, as stated, fails for a playlist id that is not an ObjectId: it
    resolves to no playlist, and the answer is 500, not 404. *)
Lemma remove_media_malformed_id_is_server_error :
  castObjectId "abc" = None ∧
  delete_playlists_playlistId_midias_midiaId "abc" id2 s_media =
    ({| status := 500; payload := Text "Erro ao excluir mídia" |}, s_media) ∧
  status (delete_playlists_playlistId_midias_midiaId "abc" id2 s_media).1 ≠ 404.
Proof.
  split; [done|].
  rewrite (remove_media_malformed "abc" id2 s_media eq_refl). split; [done|]. simpl. lia.
Qed.

(** C4 (amended).  For a playlist id that is the hexadecimal string of the
    id of a stored playlist, the callback answers 200 with the list it
    stores for that playlist, every other playlist and every monitor being
    as before: the items of the old list that [midiaId] does not name, in
    their order.  If [midiaId] names no item the list is the old one; if it names
    an item of a list with distinct ids, exactly that item is gone.  For the
    hexadecimal string of the id of no playlist the answer is 404; for a
    string that is no such hexadecimal string and is not 12 characters long
    it is 500; in both cases nothing changes. *)
Theorem remove_media_filters (playlistId midiaId : string) (s : Server) :
  match castObjectId playlistId with
  | Some oid =>
      match playlists s !! oid with
      | Some playlist =>
          ∃ kept,
            (delete_playlists_playlistId_midias_midiaId playlistId midiaId s).1 =
              {| status := 200; payload := JMidias kept |} ∧
            playlists (delete_playlists_playlistId_midias_midiaId playlistId midiaId s).2 =
              <[oid := {| pl_name := pl_name playlist; pl_midias := kept |}]> (playlists s) ∧
            monitors (delete_playlists_playlistId_midias_midiaId playlistId midiaId s).2 =
              monitors s ∧
            (∀ midia, midia ∈ kept ↔ midia ∈ pl_midias playlist ∧ ¬ has_id midiaId midia) ∧
            kept `sublist_of` pl_midias playlist ∧
            (Forall (λ midia, ¬ has_id midiaId midia) (pl_midias playlist) →
             kept = pl_midias playlist) ∧
            (∀ (before : list Midia) midia (after : list Midia),
               pl_midias playlist = before ++ midia :: after →
               has_id midiaId midia →
               NoDup (md_id <$> pl_midias playlist) →
               kept = before ++ after)
      | None =>
          delete_playlists_playlistId_midias_midiaId playlistId midiaId s =
            ({| status := 404; payload := Text "Playlist não encontrada" |}, s)
      end
  | None =>
      js_length playlistId ≠ 12 →
      delete_playlists_playlistId_midias_midiaId playlistId midiaId s =
        ({| status := 500; payload := Text "Erro ao excluir mídia" |}, s)
  end.
Proof.
  destruct (castObjectId playlistId) as [oid|] eqn:Hc;
    [|by intros _; apply remove_media_malformed].
  destruct (playlists s !! oid) as [playlist|] eqn:Hp;
    [|by apply (remove_media_not_found _ _ _ oid)].
  rewrite (remove_media_found _ _ _ _ _ Hc Hp). cbn [fst snd playlists monitors].
  eexists. split; [reflexivity|]. split; [reflexivity|]. split; [reflexivity|].
  split; [|split; [|split]].
  - intros midia. rewrite elem_of_filter_bool. by rewrite keeps_iff.
  - apply filter_is_sublist.
  - intros Hall. apply filter_keeps_all. eapply Forall_impl; [exact Hall|].
    intros midia. by rewrite keeps_iff.
  - intros before midia after -> Hid Hnd. by apply filter_out_one.
Qed.

Lemma s_media_lobby :
  castObjectId id0 = Some 0%N ∧
  playlists s_media !! 0%N =
    Some {| pl_name := Some "Lobby"; pl_midias := [a_item; b_item] |}.
Proof. by vm_compute. Qed.

Lemma remove_media_filters_witness :
  (delete_playlists_playlistId_midias_midiaId id0 id2 s_media).1 =
    {| status := 200; payload := JMidias [b_item] |} ∧
  (delete_playlists_playlistId_midias_midiaId id0 id1 s_media).1 =
    {| status := 200; payload := JMidias [a_item; b_item] |} ∧
  delete_playlists_playlistId_midias_midiaId "xyz" id2 s_media =
    ({| status := 500; payload := Text "Erro ao excluir mídia" |}, s_media).
Proof.
  split; [|split].
  - pose proof (remove_media_filters id0 id2 s_media) as H.
    rewrite (proj1 s_media_lobby) in H. cbv beta iota in H.
    rewrite (proj2 s_media_lobby) in H.
    destruct H as (kept & -> & _ & _ & _ & _ & _ & Hone).
    rewrite (Hone [] a_item [b_item]); [done|done|done|].
    simpl. apply (bool_decide_unpack _). by vm_compute.
  - pose proof (remove_media_filters id0 id1 s_media) as H.
    rewrite (proj1 s_media_lobby) in H. cbv beta iota in H.
    rewrite (proj2 s_media_lobby) in H.
    destruct H as (kept & -> & _ & _ & _ & _ & Hnone & _).
    rewrite Hnone; [done|].
    repeat constructor; unfold has_id; by vm_compute.
  - pose proof (remove_media_filters "xyz" id2 s_media) as H.
    change (castObjectId "xyz") with (@None N) in H. cbv beta iota in H.
    apply H. by vm_compute.
Defined.

(** C7.  Removing a media item leaves the upload directory as it was: the
    item that [midiaId] names is gone from the stored playlist while the file
    that its [url] refers to is still on disk with the same bytes. *)
Theorem remove_media_keeps_files (playlistId midiaId : string) (s : Server) :
  disk (delete_playlists_playlistId_midias_midiaId playlistId midiaId s).2 = disk s ∧
  ∀ oid playlist midia name,
    castObjectId playlistId = Some oid → playlists s !! oid = Some playlist →
    midia ∈ pl_midias playlist → has_id midiaId midia →
    md_url midia = Some ("/uploads/" +:+ name) →
    (∃ playlist',
       playlists (delete_playlists_playlistId_midias_midiaId playlistId midiaId s).2 !! oid
         = Some playlist' ∧
       midia ∉ pl_midias playlist') ∧
    disk (delete_playlists_playlistId_midias_midiaId playlistId midiaId s).2
      !! (destination +:+ name) = disk s !! (destination +:+ name).
Proof.
  split.
  - destruct (castObjectId playlistId) as [oid|] eqn:Hc;
      [|by rewrite remove_media_malformed].
    destruct (playlists s !! oid) as [playlist|] eqn:Hp.
    + by rewrite (remove_media_found _ _ _ _ _ Hc Hp).
    + by rewrite (remove_media_not_found _ _ _ _ Hc Hp).
  - intros oid playlist midia name Hc Hp Hin Hid _.
    rewrite (remove_media_found _ _ _ _ _ Hc Hp). simpl. split; [|done].
    eexists. split; [apply lookup_insert_eq|]. simpl.
    rewrite elem_of_filter_bool, keeps_iff. tauto.
Qed.

Lemma remove_media_keeps_files_witness :
  disk s_media !! "uploads/1700000000000.png" = Some (Whole "bytes of a") ∧
  (∃ playlist',
     playlists (delete_playlists_playlistId_midias_midiaId id0 id2 s_media).2 !! 0%N
       = Some playlist' ∧
     a_item ∉ pl_midias playlist') ∧
  disk (delete_playlists_playlistId_midias_midiaId id0 id2 s_media).2
    !! "uploads/1700000000000.png" = disk s_media !! "uploads/1700000000000.png".
Proof.
  split; [by vm_compute|].
  apply (proj2 (remove_media_keeps_files id0 id2 s_media) 0%N
           {| pl_name := Some "Lobby"; pl_midias := [a_item; b_item] |}
           a_item "1700000000000.png").
  - apply s_media_lobby.
  - apply s_media_lobby.
  - apply list_elem_of_here.
  - by vm_compute.
  - reflexivity.
Defined.

(* ===================================================================== *)
(** ** Uploading media *)
(* ===================================================================== *)

Section Upload.

Lemma upload_part_database written now file s :
  playlists (upload_part written now file s) = playlists s ∧
  monitors (upload_part written now file s) = monitors s ∧
  next_oid (upload_part written now file s) = next_oid s.
Proof. unfold upload_part. by case_bool_decide. Qed.

(** A part writes at its own path and nowhere else; alone at that path in
    its request, it leaves its bytes there. *)
Lemma upload_part_disk written now file s path :
  disk (upload_part written now file s) !! path =
    if decide (destination +:+ filename now file = path) then
      Some (if bool_decide (destination +:+ filename now file ∈ written)
            then overlap (disk s !! path) (bytes file)
            else Whole (bytes file))
    else disk s !! path.
Proof.
  unfold upload_part. simpl. case_bool_decide; simpl; rewrite lookup_insert;
    case_decide; by subst.
Qed.

Lemma upload_parts_files written parts s :
  (upload_parts written parts s).1 = (λ part, file_of part.1 part.2) <$> parts.
Proof.
  revert written s. induction parts as [|[now file] parts IH]; intros written s;
    simpl; [done|].
  specialize (IH (file_path (file_of now file) :: written) (upload_part written now file s)).
  destruct (upload_parts _ parts _) as [fs s2]. simpl in *. by rewrite IH.
Qed.

Lemma upload_array_files parts s :
  (upload_array parts s).1 = (λ part, file_of part.1 part.2) <$> parts.
Proof. apply upload_parts_files. Qed.

Lemma upload_parts_database written parts s :
  playlists (upload_parts written parts s).2 = playlists s ∧
  monitors (upload_parts written parts s).2 = monitors s ∧
  next_oid (upload_parts written parts s).2 = next_oid s.
Proof.
  revert written s. induction parts as [|[now file] parts IH]; intros written s;
    simpl; [done|].
  specialize (IH (file_path (file_of now file) :: written) (upload_part written now file s)).
  destruct (upload_part_database written now file s) as (H1 & H2 & H3).
  destruct (upload_parts _ parts _) as [fs s2]. simpl in *.
  by rewrite <- H1, <- H2, <- H3.
Qed.

(** The middleware writes files and nothing else. *)
Lemma upload_array_database parts s :
  playlists (upload_array parts s).2 = playlists s ∧
  monitors (upload_array parts s).2 = monitors s ∧
  next_oid (upload_array parts s).2 = next_oid s.
Proof. apply upload_parts_database. Qed.

Lemma upload_parts_keeps_paths written parts s path :
  is_Some (disk s !! path) → is_Some (disk (upload_parts written parts s).2 !! path).
Proof.
  revert written s. induction parts as [|[now file] parts IH]; intros written s Hs;
    simpl; [done|].
  specialize (IH (file_path (file_of now file) :: written) (upload_part written now file s)).
  destruct (upload_parts _ parts _) as [fs s2]. simpl in *. apply IH.
  rewrite upload_part_disk. case_decide; [by eexists|done].
Qed.


Lemma upload_parts_stored written parts s :
  Forall (λ part, is_Some (disk (upload_parts written parts s).2
                             !! (destination +:+ filename part.1 part.2))) parts.
Proof.
  revert written s. induction parts as [|[now file] parts IH]; intros written s;
    simpl; [done|].
  specialize (IH (file_path (file_of now file) :: written) (upload_part written now file s)).
  pose proof (upload_parts_keeps_paths (file_path (file_of now file) :: written) parts
                (upload_part written now file s) (destination +:+ filename now file)) as Hk.
  destruct (upload_parts _ parts _) as [fs s2]. simpl in *.
  constructor; [|done]. apply Hk. rewrite upload_part_disk, decide_True; [|done].
  by eexists.
Qed.

(** Every part of the request is a file on disk when the middleware is
    done. *)
Lemma upload_array_stored parts s :
  Forall (λ part, is_Some (disk (upload_array parts s).2
                             !! (destination +:+ filename part.1 part.2))) parts.
Proof. apply upload_parts_stored. Qed.

(** The parts write at their own paths only. *)
Lemma upload_parts_elsewhere written parts s path :
  path ∉ (λ part, destination +:+ filename part.1 part.2) <$> parts →
  disk (upload_parts written parts s).2 !! path = disk s !! path.
Proof.
  revert written s. induction parts as [|[now file] parts IH]; intros written s;
    simpl; [done|].
  intros [Hne Hrest]%not_elem_of_cons.
  specialize (IH (file_path (file_of now file) :: written)
                (upload_part written now file s) Hrest).
  destruct (upload_parts _ parts _) as [fs s2]. simpl in *. rewrite IH.
  rewrite upload_part_disk, decide_False; [done|congruence].
Qed.

(** With a storage name of its own for every part, each part is on disk
    with its bytes. *)
Lemma upload_parts_whole written parts s :
  NoDup ((λ part, destination +:+ filename part.1 part.2) <$> parts) →
  (∀ part, part ∈ parts → destination +:+ filename part.1 part.2 ∉ written) →
  Forall (λ part, disk (upload_parts written parts s).2
                    !! (destination +:+ filename part.1 part.2)
                  = Some (Whole (bytes part.2))) parts.
Proof.
  revert written s. induction parts as [|[now file] parts IH]; intros written s;
    [constructor|].
  rewrite fmap_cons. cbn [fst snd upload_parts].
  intros [Hnew Hnd]%NoDup_cons Hw.
  pose proof (upload_parts_elsewhere (file_path (file_of now file) :: written) parts
                (upload_part written now file s) _ Hnew) as Hhere.
  specialize (IH (file_path (file_of now file) :: written)
                (upload_part written now file s) Hnd).
  destruct (upload_parts _ parts _) as [fs s2]. cbn [fst snd] in *.
  constructor; cbn [fst snd].
  - rewrite Hhere, upload_part_disk, decide_True; [|done].
    rewrite bool_decide_eq_false_2; [done|]. apply (Hw (now, file)). by left.
  - apply IH. intros part Hin. apply not_elem_of_cons. split.
    + intros Heq. apply Hnew.
      change (destination +:+ filename now file) with (file_path (file_of now file)).
      rewrite <- Heq.
      by apply (list_elem_of_fmap_2 (λ part, destination +:+ filename part.1 part.2)).
    + apply Hw. by right.
Qed.

Lemma destination_inj a b : destination +:+ a = destination +:+ b → a = b.
Proof. unfold destination. simpl. by intros [=]. Qed.

Lemma upload_array_whole parts s :
  NoDup ((λ part, filename part.1 part.2) <$> parts) →
  Forall (λ part, disk (upload_array parts s).2
                    !! (destination +:+ filename part.1 part.2)
                  = Some (Whole (bytes part.2))) parts.
Proof.
  intros Hnd. apply upload_parts_whole; [|intros ? _; apply not_elem_of_nil].
  rewrite (list_fmap_compose (λ part, filename part.1 part.2) (String.append destination)).
  assert (Inj (=) (=) (String.append destination)) as Hinj
    by (intros a b; apply destination_inj).
  by apply (NoDup_fmap_2 _).
Qed.

Lemma cast_midias_items items s :
  cast_midias (inr <$> items) s =
    (inr (subdocuments (next_oid s) items),
     {| playlists := playlists s; monitors := monitors s; disk := disk s;
        next_oid := next_oid s + N.of_nat (length items) |}).
Proof.
  revert s. induction items as [|item items IH]; intros s; simpl.
  - unfold ret. by rewrite N.add_0_r, server_eta.
  - unfold bind, new_ObjectId at 1. rewrite IH. unfold ret. simpl.
    rewrite Nat2N.inj_succ, N.add_succ_comm. reflexivity.
Qed.

(** The ids of the new items come after the ids drawn, and dropped, for the
    items that the list had. *)
Lemma cast_midias_concat midias items s :
  cast_midias ((inl <$> midias) ++ (inr <$> items)) s =
    (inr (midias ++ subdocuments (next_oid s + N.of_nat (length midias)) items),
     {| playlists := playlists s; monitors := monitors s; disk := disk s;
        next_oid := next_oid s + N.of_nat (length midias) + N.of_nat (length items) |}).
Proof.
  revert s. induction midias as [|midia midias IH]; intros s.
  - rewrite fmap_nil, app_nil_l, cast_midias_items. simpl. by rewrite N.add_0_r.
  - rewrite fmap_cons.
    change (cast_midias ((inl midia :: (inl <$> midias)) ++ (inr <$> items)) s)
      with (bind new_ObjectId
              (λ _, bind (cast_midias ((inl <$> midias) ++ (inr <$> items)))
                         (λ rest, ret (midia :: rest))) s).
    unfold bind at 1. unfold new_ObjectId. unfold bind. rewrite IH. unfold ret. simpl.
    by rewrite Nat2N.inj_succ, !N.add_succ_comm.
Qed.

Lemma subdocuments_uploaded oid parts :
  Forall2 uploaded parts
    (subdocuments oid (midiasItems_of ((λ part, file_of part.1 part.2) <$> parts))).
Proof.
  revert oid. induction parts as [|[now file] parts IH]; intros oid; simpl;
    constructor; [done|apply IH].
Qed.

Context (id : string) (parts : list (N * Part)) (s : Server).

Lemma upload_found oid playlist :
  castObjectId id = Some oid → playlists s !! oid = Some playlist →
  post_playlists_id_midias id parts s =
    let files := (λ part, file_of part.1 part.2) <$> parts in
    let midias :=
      pl_midias playlist ++
      subdocuments (next_oid s + N.of_nat (length (pl_midias playlist)))
                   (midiasItems_of files) in
    ({| status := 200; payload := JMidias midias |},
     {| playlists :=
          <[oid := {| pl_name := pl_name playlist; pl_midias := midias |}]> (playlists s);
        monitors := monitors s;
        disk := disk (upload_array parts s).2;
        next_oid := next_oid s + N.of_nat (length (pl_midias playlist))
                    + N.of_nat (length parts) |}).
Proof.
  intros Hc Hp. unfold post_playlists_id_midias.
  pose proof (upload_array_files parts s) as Hf.
  destruct (upload_array_database parts s) as (Hpl & Hmn & Hn).
  destruct (upload_array parts s) as [files s1]. simpl in *. subst files.
  run. rewrite Hc, Hpl, Hp. simpl. unfold midias_of. simpl.
  rewrite cast_midias_concat. simpl. rewrite Hpl, Hmn, Hn.
  unfold midiasItems_of. by rewrite !length_map.
Qed.

Lemma upload_not_found oid :
  castObjectId id = Some oid → playlists s !! oid = None →
  post_playlists_id_midias id parts s =
    ({| status := 404; payload := JMessage "Playlist não encontrada" |},
     (upload_array parts s).2).
Proof.
  intros Hc Hp. unfold post_playlists_id_midias.
  destruct (upload_array_database parts s) as (Hpl & _).
  destruct (upload_array parts s) as [files s1]. simpl in *.
  run. by rewrite Hc, Hpl, Hp.
Qed.

Lemma upload_malformed :
  castObjectId id = None →
  post_playlists_id_midias id parts s =
    ({| status := 500;
        payload := JMessageError "Erro ao fazer upload de mídia" (CastError id) |},
     (upload_array parts s).2).
Proof.
  intros Hc. unfold post_playlists_id_midias.
  destruct (upload_array parts s) as [files s1]. simpl in *.
  run. by rewrite Hc.
Qed.
End Upload.

(** C3, as stated, fails for a playlist id that is not an ObjectId: it
    resolves to no playlist, and the answer is 500, not 404. *)
Lemma upload_malformed_id_is_server_error :
  castObjectId "abc" = None ∧
  status (post_playlists_id_midias "abc" [(1700000000000%N, a_png)] s_lobby).1 = 500 ∧
  status (post_playlists_id_midias "abc" [(1700000000000%N, a_png)] s_lobby).1 ≠ 404.
Proof.
  split; [done|].
  rewrite (upload_malformed "abc" _ s_lobby eq_refl). simpl. split; [done|lia].
Qed.

(** C3 (amended).  The middleware writes every part of the request to disk
    before the callback runs: every part has a file at its location, and it
    is there with its own bytes when the storage names of the parts of the
    request are distinct.  For a playlist id that is the hexadecimal string
    of the id of a stored playlist, the callback answers 200 with the list
    it stores: the old list followed by one item per part, in the order of
    the request, each with the original name of its part and the location
    of its stored file; the list is longer by the number of parts.  For the
    hexadecimal string of the id of no playlist the answer is 404; for a
    string that is no such hexadecimal string and is not 12 characters long
    it is 500; in both cases the playlists are as before. *)
Theorem attach_media_appends (id : string) (parts : list (N * Part)) (s : Server) :
  disk (post_playlists_id_midias id parts s).2 = disk (upload_array parts s).2 ∧
  Forall (λ part, is_Some (disk (post_playlists_id_midias id parts s).2
                             !! (destination +:+ filename part.1 part.2))) parts ∧
  (NoDup ((λ part, filename part.1 part.2) <$> parts) →
   Forall (λ part, disk (post_playlists_id_midias id parts s).2
                     !! (destination +:+ filename part.1 part.2)
                   = Some (Whole (bytes part.2))) parts) ∧
  match castObjectId id with
  | Some oid =>
      match playlists s !! oid with
      | Some playlist =>
          ∃ new,
            (post_playlists_id_midias id parts s).1 =
              {| status := 200; payload := JMidias (pl_midias playlist ++ new) |} ∧
            playlists (post_playlists_id_midias id parts s).2 !! oid =
              Some {| pl_name := pl_name playlist;
                      pl_midias := pl_midias playlist ++ new |} ∧
            Forall2 uploaded parts new ∧
            length (pl_midias playlist ++ new) = length (pl_midias playlist) + length parts
      | None =>
          (post_playlists_id_midias id parts s).1 =
            {| status := 404; payload := JMessage "Playlist não encontrada" |} ∧
          playlists (post_playlists_id_midias id parts s).2 = playlists s
      end
  | None =>
      js_length id ≠ 12 →
      (post_playlists_id_midias id parts s).1 =
        {| status := 500;
           payload := JMessageError "Erro ao fazer upload de mídia" (CastError id) |} ∧
      playlists (post_playlists_id_midias id parts s).2 = playlists s
  end.
Proof.
  pose proof (upload_array_stored parts s) as Hst.
  pose proof (upload_array_whole parts s) as Hwh.
  destruct (upload_array_database parts s) as (Hpl & _).
  destruct (castObjectId id) as [oid|] eqn:Hc;
    [destruct (playlists s !! oid) as [playlist|] eqn:Hp|].
  - rewrite (upload_found _ _ _ _ _ Hc Hp). simpl.
    split; [done|]. split; [done|]. split; [done|].
    eexists. split; [done|]. split; [apply lookup_insert_eq|].
    pose proof (subdocuments_uploaded
                  (next_oid s + N.of_nat (length (pl_midias playlist))) parts) as Hup.
    split; [exact Hup|].
    rewrite length_app. f_equal. symmetry. by eapply Forall2_length.
  - by rewrite (upload_not_found _ _ _ _ Hc Hp).
  - by rewrite (upload_malformed _ _ _ Hc).
Qed.

Lemma attach_media_appends_witness :
  (∃ m1 m2,
     (post_playlists_id_midias id0 [(1700000000000%N, a_png); (1700000000001%N, b_png)]
        s_screen).1 = {| status := 200; payload := JMidias [m1; m2] |} ∧
     md_name m1 = Some "a.png" ∧ md_url m1 = Some "/uploads/1700000000000.png" ∧
     md_name m2 = Some "b.png" ∧ md_url m2 = Some "/uploads/1700000000001.png") ∧
  Forall (λ part,
            disk (post_playlists_id_midias id0
                    [(1700000000000%N, a_png); (1700000000001%N, b_png)] s_screen).2
              !! (destination +:+ filename part.1 part.2) = Some (Whole (bytes part.2)))
         [(1700000000000%N, a_png); (1700000000001%N, b_png)] ∧
  status (post_playlists_id_midias "abc" [(1700000000000%N, a_png)] s_screen).1 = 500.
Proof.
  destruct s_screen_documents as (Hc0 & _ & Hp0 & _).
  pose proof (attach_media_appends id0
                [(1700000000000%N, a_png); (1700000000001%N, b_png)] s_screen)
    as (_ & _ & Hwhole & H).
  pose proof (attach_media_appends "abc" [(1700000000000%N, a_png)] s_screen)
    as (_ & _ & _ & Habc).
  split; [|split].
  - rewrite Hc0 in H. cbv beta iota in H. rewrite Hp0 in H.
    destruct H as (new & Hr & _ & Hup & _).
    apply Forall2_cons_inv_l in Hup as (m1 & new' & [Hn1 Hu1] & Hup & ->).
    apply Forall2_cons_inv_l in Hup as (m2 & new'' & [Hn2 Hu2] & Hup & ->).
    apply Forall2_nil_inv_l in Hup as ->.
    exists m1, m2. done.
  - apply Hwhole. apply (bool_decide_unpack _). by vm_compute.
  - change (castObjectId "abc") with (@None N) in Habc. cbv beta iota in Habc.
    destruct Habc as [-> _]; [by vm_compute|done].
Defined.

(* ===================================================================== *)
(** ** Storage names *)
(* ===================================================================== *)

Lemma string_of_uint_dotless d :
  dotless (DecimalString.NilEmpty.string_of_uint d).
Proof. induction d; simpl; (split; [discriminate|assumption]) || exact I. Qed.

Lemma dec_inj a b : dec a = dec b → a = b.
Proof.
  unfold dec. intros H. apply DecimalN.Unsigned.to_uint_inj.
  pose proof (DecimalString.NilEmpty.usu (N.to_uint a)) as Ha.
  rewrite H, DecimalString.NilEmpty.usu in Ha. congruence.
Qed.

(** An extension is empty or starts at its dot. *)
Lemma extname_shape path :
  extname path = "" ∨ ∃ rest, extname path = String "."%char rest.
Proof.
  unfold extname. destruct (split_dot _) as [[ext pre]|]; [|by left].
  destruct pre as [|c [|c' pre]]; [by left| |by right; eexists].
  destruct ext; [|by right; eexists].
  destruct (is_dot c); [by left|by right; eexists].
Qed.

(** A dotless prefix followed by an extension splits in one way only. *)
Lemma dotless_prefix_unique d1 d2 e1 e2 :
  dotless d1 → dotless d2 →
  (e1 = "" ∨ ∃ r, e1 = String "."%char r) →
  (e2 = "" ∨ ∃ r, e2 = String "."%char r) →
  d1 +:+ e1 = d2 +:+ e2 → d1 = d2 ∧ e1 = e2.
Proof.
  revert d2. induction d1 as [|c d1 IH]; intros [|c' d2]; simpl.
  - done.
  - intros _ [Hc' _] [->|[r ->]] _ [=]. congruence.
  - intros [Hc _] _ _ [->|[r ->]] [=]. congruence.
  - intros [_ H1] [_ H2] He1 He2 [= -> Heq].
    destruct (IH d2 H1 H2 He1 He2 Heq) as [-> ->]. done.
Qed.

(** Parts named at different milliseconds have different storage names. *)
Lemma filenames_distinct (parts : list (N * Part)) :
  NoDup parts.*1 → NoDup ((λ part, filename part.1 part.2) <$> parts).
Proof.
  induction parts as [|[now file] parts IH]; [constructor|].
  rewrite !fmap_cons. cbn [fst snd]. intros [Hnew Hnd]%NoDup_cons.
  apply NoDup_cons. split; [|by apply IH].
  intros ([now' file'] & Heq & Hin)%list_elem_of_fmap. cbn [fst snd] in Heq.
  unfold filename in Heq.
  apply dotless_prefix_unique in Heq as [Hdec _];
    try apply string_of_uint_dotless; try apply extname_shape.
  apply dec_inj in Hdec as ->.
  apply Hnew. by apply (list_elem_of_fmap_2 fst) in Hin.
Qed.

(** C6, as stated, fails for two uploads in the same millisecond with the
    same extension: the two files get the same storage name and the same
    path, and the request that uploads both leaves one file on disk. *)
Lemma same_millisecond_uploads_collide :
  a_png ≠ b_png ∧
  filename 1700000000000 a_png = filename 1700000000000 b_png ∧
  file_path <$> (upload_array [(1700000000000%N, a_png); (1700000000000%N, b_png)]
                   empty_server).1
    = ["uploads/1700000000000.png"; "uploads/1700000000000.png"] ∧
  size (disk (upload_array [(1700000000000%N, a_png); (1700000000000%N, b_png)]
                empty_server).2) = 1.
Proof. repeat split; by vm_compute. Qed.

(** C6 (amended).  The storage name is the decimal millisecond count
    followed by the extension of the original name.  Two uploads get the same
    storage name exactly when they have the same millisecond count and the
    same extension.  An upload writes at the storage names of its parts and
    leaves every file at another path as it was; when its parts are named at
    different milliseconds, each of them is on disk with its own bytes. *)
Theorem storage_name_collides_iff
    (now1 now2 : N) (file1 file2 : Part) (parts : list (N * Part)) (s : Server) :
  filename now1 file1 = dec now1 +:+ extname (originalname file1) ∧
  (filename now1 file1 = filename now2 file2 ↔
     now1 = now2 ∧ extname (originalname file1) = extname (originalname file2)) ∧
  (∀ path,
     path ∉ (λ part, destination +:+ filename part.1 part.2) <$> parts →
     disk (upload_array parts s).2 !! path = disk s !! path) ∧
  (NoDup parts.*1 →
   Forall (λ part, disk (upload_array parts s).2
                     !! (destination +:+ filename part.1 part.2)
                   = Some (Whole (bytes part.2))) parts).
Proof.
  split; [done|]. split; [|split].
  - unfold filename. split.
    + intros H. apply dotless_prefix_unique in H as [H1 H2];
        try apply string_of_uint_dotless; try apply extname_shape.
      by apply dec_inj in H1.
    + by intros [-> ->].
  - intros path. apply upload_parts_elsewhere.
  - intros Hnd. by apply upload_array_whole, filenames_distinct.
Qed.

Lemma storage_name_collides_iff_witness :
  filename 1700000000000 a_png ≠ filename 1700000000001 b_png ∧
  disk (upload_array [(1700000000001%N, b_png)]
          (upload_array [(1700000000000%N, a_png)] empty_server).2).2
    !! "uploads/1700000000000.png" = Some (Whole (bytes a_png)) ∧
  Forall (λ part, disk (upload_array [(1700000000000%N, a_png); (1700000000001%N, b_png)]
                          empty_server).2
                    !! (destination +:+ filename part.1 part.2)
                  = Some (Whole (bytes part.2)))
         [(1700000000000%N, a_png); (1700000000001%N, b_png)].
Proof.
  split; [|split].
  - intros H.
    apply (proj1 (proj1 (proj2 (storage_name_collides_iff
             1700000000000 1700000000001 a_png b_png [] empty_server)))) in H.
    destruct H as [H _]. discriminate H.
  - rewrite (proj1 (proj2 (proj2 (storage_name_collides_iff
               1700000000001 1700000000000 b_png a_png [(1700000000001%N, b_png)]
               (upload_array [(1700000000000%N, a_png)] empty_server).2)))).
    + by vm_compute.
    + apply (bool_decide_unpack _). by vm_compute.
  - apply (proj2 (proj2 (proj2 (storage_name_collides_iff
             0 0 a_png a_png [(1700000000000%N, a_png); (1700000000001%N, b_png)]
             empty_server)))).
    apply (bool_decide_unpack _). by vm_compute.
Defined.

(* ===================================================================== *)
(** ** The database stays consistent *)
(* ===================================================================== *)

(** Linking never changes the state. *)
Lemma link_changes_nothing monitorId body s :
  (post_monitores_monitorId_playlists monitorId body s).2 = s.
Proof.
  unfold post_monitores_monitorId_playlists.
  destruct (falsy (field body "playlistId")) eqn:Hf; [done|].
  destruct (castObjectId monitorId) as [oid|] eqn:Hc.
  - destruct (monitors s !! oid) as [m|] eqn:Hm.
    + pose proof (link_existing_monitor_throws monitorId body s oid m Hc Hm Hf) as H.
      unfold post_monitores_monitorId_playlists in H. rewrite Hf in H. by rewrite H.
    + run. by rewrite Hc, Hm.
  - run. by rewrite Hc.
Qed.

(** Neither does the overwrite. *)
Lemma relink_changes_nothing monitorId body s :
  (put_monitores_monitorId_playlists monitorId body s).2 = s.
Proof.
  destruct (castObjectId monitorId) as [oid|] eqn:Hc.
  - destruct (monitors s !! oid) as [m|] eqn:Hm.
    + by rewrite (relink_existing_monitor_unchanged _ _ _ _ _ Hc Hm).
    + unfold put_monitores_monitorId_playlists. run. by rewrite Hc, Hm.
  - unfold put_monitores_monitorId_playlists. run. by rewrite Hc.
Qed.

Lemma subdocuments_ids oid items :
  Forall (λ midia, (oid ≤ md_id midia < oid + N.of_nat (length items))%N)
         (subdocuments oid items) ∧
  NoDup (md_id <$> subdocuments oid items).
Proof.
  revert oid. induction items as [|item items IH]; intros oid; simpl.
  - split; constructor.
  - destruct (IH (N.succ oid)) as [Hr Hd]. split.
    + constructor; [simpl; lia|]. eapply Forall_impl; [exact Hr|]. simpl. lia.
    + constructor; [|done]. intros Hin.
      apply list_elem_of_fmap in Hin as (midia & Hid & Hin).
      rewrite Forall_forall in Hr. specialize (Hr _ Hin). simpl in Hid. lia.
Qed.

Section Consistency.
Context (s : Server) (Hs : consistent s).

Lemma consistent_upload_array parts : consistent (upload_array parts s).2.
Proof.
  destruct (upload_array_database parts s) as (Hpl & Hmn & Hn).
  destruct Hs as [H1 H2 H3 H4].
  split; rewrite ?Hpl, ?Hmn, ?Hn; done.
Qed.

(** Drawing ids keeps the database consistent. *)
Lemma consistent_draw k :
  consistent {| playlists := playlists s; monitors := monitors s; disk := disk s;
                next_oid := next_oid s + k |}.
Proof.
  destruct Hs as [H1 H2 H3 H4]. split; simpl.
  - intros oid p Hp. specialize (H1 _ _ Hp). lia.
  - intros oid p Hp. eapply Forall_impl; [exact (H2 _ _ Hp)|]. simpl. lia.
  - apply H3.
  - intros oid m Hm. specialize (H4 _ _ Hm). lia.
Qed.

Lemma consistent_post_playlists body : consistent (post_playlists body s).2.
Proof.
  rewrite post_playlists_run.
  destruct (cast_String (field body "name")) as [name|];
    [|rewrite <- N.add_1_r; apply consistent_draw].
  destruct Hs as [H1 H2 H3 H4].
  split; simpl.
  - intros oid p. rewrite lookup_insert. case_decide; [lia|].
    intros Hp. specialize (H1 _ _ Hp). lia.
  - intros oid p. rewrite lookup_insert. case_decide.
    + intros [= <-]. constructor.
    + intros Hp. eapply Forall_impl; [exact (H2 _ _ Hp)|]. simpl. lia.
  - intros oid p. rewrite lookup_insert. case_decide.
    + intros [= <-]. constructor.
    + apply H3.
  - intros oid m Hm. specialize (H4 _ _ Hm). lia.
Qed.

Lemma consistent_post_monitores body : consistent (post_monitores body s).2.
Proof.
  rewrite post_monitores_run.
  destruct (cast_String (field body "name")) as [name|];
    [|rewrite <- N.add_1_r; apply consistent_draw].
  destruct Hs as [H1 H2 H3 H4].
  split; simpl.
  - intros oid p Hp. specialize (H1 _ _ Hp). lia.
  - intros oid p Hp. eapply Forall_impl; [exact (H2 _ _ Hp)|]. simpl. lia.
  - apply H3.
  - intros oid m. rewrite lookup_insert. case_decide; [lia|].
    intros Hm. specialize (H4 _ _ Hm). lia.
Qed.

Lemma consistent_delete_playlists_id id : consistent (delete_playlists_id id s).2.
Proof.
  destruct Hs as [H1 H2 H3 H4].
  destruct (castObjectId id) as [oid|] eqn:Hc.
  - rewrite (delete_playlists_id_cast _ _ _ Hc).
    split; simpl; try done; intros oid' p Hp;
      apply lookup_delete_Some in Hp as [_ Hp]; eauto.
  - by rewrite (delete_playlists_id_malformed _ _ Hc).
Qed.

Lemma consistent_delete_monitores_id id : consistent (delete_monitores_id id s).2.
Proof.
  destruct Hs as [H1 H2 H3 H4].
  destruct (castObjectId id) as [oid|] eqn:Hc.
  - destruct (monitors s !! oid) as [m|] eqn:Hm.
    + rewrite (delete_monitores_id_present _ _ _ _ Hc Hm).
      split; simpl; try done. intros oid' m' Hm'.
      apply lookup_delete_Some in Hm' as [_ Hm']. eauto.
    + by rewrite (delete_monitores_id_absent _ _ _ Hc Hm).
  - by rewrite (delete_monitores_id_malformed _ _ Hc).
Qed.

Lemma consistent_remove_media playlistId midiaId :
  consistent (delete_playlists_playlistId_midias_midiaId playlistId midiaId s).2.
Proof.
  destruct Hs as [H1 H2 H3 H4].
  destruct (castObjectId playlistId) as [oid|] eqn:Hc;
    [|by rewrite remove_media_malformed].
  destruct (playlists s !! oid) as [playlist|] eqn:Hp;
    [|by rewrite (remove_media_not_found _ _ _ _ Hc Hp)].
  rewrite (remove_media_found _ _ _ _ _ Hc Hp).
  split; simpl; try done; intros oid' p; rewrite lookup_insert; case_decide;
    try (by eauto); intros [= <-]; subst oid'; simpl.
  - eauto.
  - apply Forall_forall. intros midia [Hin _]%elem_of_filter_bool.
    specialize (H2 _ _ Hp). rewrite Forall_forall in H2. by apply H2.
  - eapply sublist_NoDup; [by eauto|]. apply fmap_sublist, filter_is_sublist.
Qed.

Lemma consistent_upload id parts : consistent (post_playlists_id_midias id parts s).2.
Proof.
  pose proof (consistent_upload_array parts) as Hu.
  destruct (castObjectId id) as [oid|] eqn:Hc;
    [|by rewrite (upload_malformed _ _ _ Hc)].
  destruct (playlists s !! oid) as [playlist|] eqn:Hp;
    [|by rewrite (upload_not_found _ _ _ _ Hc Hp)].
  rewrite (upload_found _ _ _ _ _ Hc Hp). clear Hu.
  destruct Hs as [H1 H2 H3 H4].
  set (items := midiasItems_of ((λ part, file_of part.1 part.2) <$> parts)).
  assert (length items = length parts) as Hlen
    by (unfold items, midiasItems_of; by rewrite !length_map).
  destruct (subdocuments_ids (next_oid s + N.of_nat (length (pl_midias playlist))) items)
    as [Hr Hd].
  rewrite Hlen in Hr.
  split; simpl.
  - intros oid' p. rewrite lookup_insert. case_decide.
    + intros _. subst oid'. specialize (H1 _ _ Hp). lia.
    + intros Hp'. specialize (H1 _ _ Hp'). lia.
  - intros oid' p. rewrite lookup_insert. case_decide.
    + intros [= <-]. simpl. apply Forall_app. split.
      * eapply Forall_impl; [exact (H2 _ _ Hp)|]. simpl. lia.
      * eapply Forall_impl; [exact Hr|]. simpl. lia.
    + intros Hp'. eapply Forall_impl; [exact (H2 _ _ Hp')|]. simpl. lia.
  - intros oid' p. rewrite lookup_insert. case_decide; [|apply H3].
    intros [= <-]. simpl. rewrite fmap_app. apply NoDup_app.
    split; [by eauto|]. split; [|done].
    intros x Hold Hnew.
    apply list_elem_of_fmap in Hold as (m1 & -> & Hold).
    apply list_elem_of_fmap in Hnew as (m2 & Heq & Hnew).
    specialize (H2 _ _ Hp). rewrite Forall_forall in H2, Hr.
    specialize (H2 _ Hold). specialize (Hr _ Hnew). lia.
  - intros oid' m Hm. specialize (H4 _ _ Hm). lia.
Qed.

(** Every route keeps the database consistent. *)
Lemma consistent_app req : consistent (app req s).2.
Proof.
  destruct req; simpl.
  - apply consistent_post_playlists.
  - apply consistent_delete_playlists_id.
  - apply consistent_upload.
  - apply consistent_remove_media.
  - apply consistent_post_monitores.
  - apply consistent_delete_monitores_id.
  - by rewrite link_changes_nothing.
  - by rewrite relink_changes_nothing.
Qed.
End Consistency.

Lemma consistent_empty : consistent empty_server.
Proof. split; intros oid x; simpl; by rewrite lookup_empty. Qed.

Lemma consistent_serve reqs s : consistent s → consistent (serve reqs s).
Proof.
  revert s. induction reqs as [|req reqs IH]; intros s Hs; simpl; [done|].
  apply IH. by apply consistent_app.
Qed.

(** X17.  Whatever the requests were since the database was empty, the
    media items of a stored playlist have distinct ids. *)
Corollary served_media_ids_distinct reqs oid playlist :
  playlists (serve reqs empty_server) !! oid = Some playlist →
  NoDup (md_id <$> pl_midias playlist).
Proof.
  apply (media_ids_distinct _ (consistent_serve reqs _ consistent_empty)).
Qed.

(** A request stores no reference to a playlist in a monitor: the monitors
    after it are monitors from before or have no playlist. *)
Lemma app_monitors req s oid m :
  monitors (app req s).2 !! oid = Some m →
  monitors s !! oid = Some m ∨ mn_playlist m = None.
Proof.
  destruct req; cbn [app].
  - rewrite post_playlists_run.
    destruct (cast_String (field body "name")); by left.
  - destruct (castObjectId id) as [o|] eqn:Hc.
    + rewrite (delete_playlists_id_cast _ _ _ Hc). by left.
    + rewrite (delete_playlists_id_malformed _ _ Hc). by left.
  - destruct (castObjectId id) as [o|] eqn:Hc;
      [destruct (playlists s !! o) as [playlist|] eqn:Hp|].
    + rewrite (upload_found _ _ _ _ _ Hc Hp). by left.
    + rewrite (upload_not_found _ _ _ _ Hc Hp). cbn [snd].
      destruct (upload_array_database parts s) as (_ & -> & _). by left.
    + rewrite (upload_malformed _ _ _ Hc). cbn [snd].
      destruct (upload_array_database parts s) as (_ & -> & _). by left.
  - destruct (castObjectId playlistId) as [o|] eqn:Hc;
      [destruct (playlists s !! o) as [playlist|] eqn:Hp|].
    + rewrite (remove_media_found _ _ _ _ _ Hc Hp). by left.
    + rewrite (remove_media_not_found _ _ _ _ Hc Hp). by left.
    + rewrite (remove_media_malformed _ _ _ Hc). by left.
  - rewrite post_monitores_run.
    destruct (cast_String (field body "name")); [|by left].
    simpl. rewrite lookup_insert. case_decide.
    + intros [= <-]. by right.
    + by left.
  - destruct (castObjectId id) as [o|] eqn:Hc;
      [destruct (monitors s !! o) as [m'|] eqn:Hm|].
    + rewrite (delete_monitores_id_present _ _ _ _ Hc Hm). simpl.
      intros [_ H]%lookup_delete_Some. by left.
    + rewrite (delete_monitores_id_absent _ _ _ Hc Hm). by left.
    + rewrite (delete_monitores_id_malformed _ _ Hc). by left.
  - rewrite link_changes_nothing. by left.
  - rewrite relink_changes_nothing. by left.
Qed.

(** X18.  Whatever the requests were since the database was empty, no
    stored monitor refers to a playlist: neither linking nor the overwrite
    stores one. *)
Lemma served_monitors_unlinked reqs oid m :
  monitors (serve reqs empty_server) !! oid = Some m → mn_playlist m = None.
Proof.
  assert (∀ s, (∀ oid m, monitors s !! oid = Some m → mn_playlist m = None) →
               ∀ oid m, monitors (serve reqs s) !! oid = Some m → mn_playlist m = None)
    as Hgen.
  { induction reqs as [|req reqs IH]; intros s Hs; simpl; [done|].
    apply IH. intros oid' m' [H|H]%app_monitors; eauto. }
  apply Hgen. intros ? ?. simpl. by rewrite lookup_empty.
Qed.

(* ===================================================================== *)
(** ** Creating and listing playlists *)
(* ===================================================================== *)

Lemma get_playlists_run s :
  get_playlists s =
    ({| list_status := 200; list_payload := JPlaylists (map_to_list (playlists s)) |}, s).
Proof.
  unfold get_playlists, Playlist_find, bind, ret. simpl.
  rewrite <- list_fmap_compose.
  rewrite (list_fmap_ext _ id (map_to_list (playlists s))); [|by intros ? [??] ?].
  by rewrite list_fmap_id.
Qed.

(** The generator has not handed out its next id yet. *)
Lemma consistent_next_unused s :
  consistent s → playlists s !! next_oid s = None ∧ monitors s !! next_oid s = None.
Proof.
  intros [H1 _ _ H4]. split.
  - destruct (playlists s !! next_oid s) eqn:Hp; [|done].
    specialize (H1 _ _ Hp). lia.
  - destruct (monitors s !! next_oid s) eqn:Hm; [|done].
    specialize (H4 _ _ Hm). lia.
Qed.

Lemma consistent_s_screen : consistent s_screen.
Proof. apply consistent_post_monitores, consistent_post_playlists, consistent_empty. Qed.

Lemma consistent_s_media : consistent s_media.
Proof. apply consistent_upload, consistent_s_screen. Qed.

(** X1.  Creating a playlist stores a document or fails as a whole.  When
    the name of the body casts to a string (or is absent or null), the
    answer is 201 with the new document, whose media list is empty; in a
    consistent database it is stored under an id that no playlist had, so no
    playlist is replaced and the collection grows by one.  When the name
    does not cast (an array, or an object without a string [_id]), the
    answer is 500 and no playlist is stored.  Monitors and files are
    untouched either way. *)
Theorem post_playlists_creates (body : Body) (s : Server) :
  consistent s →
  monitors (post_playlists body s).2 = monitors s ∧
  disk (post_playlists body s).2 = disk s ∧
  match cast_String (field body "name") with
  | Some name =>
      (post_playlists body s).1 =
        {| status := 201;
           payload := JPlaylistCreated "Playlist criada com sucesso"
                        (next_oid s, {| pl_name := name; pl_midias := [] |}) |} ∧
      playlists s !! next_oid s = None ∧
      playlists (post_playlists body s).2 !! next_oid s =
        Some {| pl_name := name; pl_midias := [] |} ∧
      (∀ oid, oid ≠ next_oid s →
         playlists (post_playlists body s).2 !! oid = playlists s !! oid) ∧
      size (playlists (post_playlists body s).2) = S (size (playlists s))
  | None =>
      (post_playlists body s).1 =
        {| status := 500; payload := JMessage "Erro ao criar playlist" |} ∧
      playlists (post_playlists body s).2 = playlists s
  end.
Proof.
  intros [Hnew _]%consistent_next_unused. rewrite post_playlists_run.
  destruct (cast_String (field body "name")) as [name|]; simpl; [|done].
  split; [done|]. split; [done|]. split; [done|]. split; [done|].
  split; [apply lookup_insert_eq|].
  split; [by intros oid Hne; apply lookup_insert_ne|].
  by apply map_size_insert_None.
Qed.

Lemma post_playlists_creates_witness :
  ((post_playlists ∅ s_media).1 =
     {| status := 201;
        payload := JPlaylistCreated "Playlist criada com sucesso"
                     (4%N, {| pl_name := None; pl_midias := [] |}) |} ∧
   size (playlists (post_playlists ∅ s_media).2) = 2) ∧
  (status (post_playlists {[ "name" := VArray [VString "Hall"] ]} s_media).1 = 500 ∧
   playlists (post_playlists {[ "name" := VArray [VString "Hall"] ]} s_media).2 =
     playlists s_media).
Proof.
  split.
  - destruct (post_playlists_creates ∅ s_media consistent_s_media)
      as (_ & _ & H1 & _ & _ & _ & H2).
    split; [exact H1|]. rewrite H2. by vm_compute.
  - destruct (post_playlists_creates {[ "name" := VArray [VString "Hall"] ]} s_media
                consistent_s_media) as (_ & _ & H1 & H2).
    split; [by rewrite H1|exact H2].
Defined.

(** X3.  In a consistent database, the listing that follows a creation
    request has no id twice.  When the name of the body casts, it has the
    new playlist, with an empty media list, next to exactly the playlists
    that were there before, so it is longer by one.  When the name does not
    cast, the listing is the one from before the request. *)
Theorem created_playlist_is_listed (body : Body) (s : Server) :
  consistent s →
  ∃ listing,
    (get_playlists (post_playlists body s).2).1 =
      {| list_status := 200; list_payload := JPlaylists listing |} ∧
    NoDup listing.*1 ∧
    match cast_String (field body "name") with
    | Some name =>
        (∀ oid p,
           (oid, p) ∈ listing ↔
           (oid = next_oid s ∧ p = {| pl_name := name; pl_midias := [] |}) ∨
           playlists s !! oid = Some p) ∧
        length listing = S (size (playlists s))
    | None =>
        (get_playlists (post_playlists body s).2).1 = (get_playlists s).1
    end.
Proof.
  intros [Hnew _]%consistent_next_unused.
  rewrite post_playlists_run, !get_playlists_run.
  destruct (cast_String (field body "name")) as [name|]; simpl.
  - eexists. split; [done|]. split; [apply NoDup_fst_map_to_list|]. split.
    + intros oid p. rewrite elem_of_map_to_list, lookup_insert_Some. split.
      * intros [[<- <-]|[_ Hp]]; [by left|by right].
      * intros [[-> ->]|Hp]; [by left|]. right. split; [|done].
        intros <-. congruence.
    + rewrite length_map_to_list. by apply map_size_insert_None.
  - eexists. split; [done|]. split; [apply NoDup_fst_map_to_list|done].
Qed.

Lemma created_playlist_is_listed_witness :
  (∃ listing,
     (get_playlists (post_playlists {[ "name" := "Hall" ]} s_media).2).1 =
       {| list_status := 200; list_payload := JPlaylists listing |} ∧
     (4%N, {| pl_name := Some "Hall"; pl_midias := [] |}) ∈ listing ∧
     length listing = 2) ∧
  (get_playlists (post_playlists {[ "name" := VArray [] ]} s_media).2).1 =
    (get_playlists s_media).1.
Proof.
  split.
  - destruct (created_playlist_is_listed {[ "name" := "Hall" ]} s_media consistent_s_media)
      as (listing & H1 & _ & H).
    change (cast_String (field {[ "name" := "Hall" ]} "name"))
      with (Some (Some "Hall")) in H.
    cbv beta iota in H. destruct H as [H2 H3].
    exists listing. split; [exact H1|]. split.
    + apply H2. by left.
    + rewrite H3. by vm_compute.
  - destruct (created_playlist_is_listed {[ "name" := VArray [] ]} s_media
                consistent_s_media) as (listing & _ & _ & H).
    change (cast_String (field {[ "name" := VArray [] ]} "name"))
      with (@None (option string)) in H.
    exact H.
Defined.

(* ===================================================================== *)
(** ** Every answer of the link and overwrite routes *)
(* ===================================================================== *)

(** X4.  Linking never changes the state and never answers 200.  It answers
    400 when [playlistId] is falsy (absent, null, false, zero or the empty
    string).  Otherwise it answers 404 for the hexadecimal string of the id
    of no monitor, 500 for the hexadecimal string of the id of a monitor
    that exists, and 500 for a string that is no such hexadecimal string and
    is not 12 characters long. *)
Theorem link_answers (monitorId : string) (body : Body) (s : Server) :
  (post_monitores_monitorId_playlists monitorId body s).2 = s ∧
  status (post_monitores_monitorId_playlists monitorId body s).1 ≠ 200 ∧
  if falsy (field body "playlistId") then
    (post_monitores_monitorId_playlists monitorId body s).1 =
      {| status := 400; payload := JMessage "O campo playlistId é obrigatório." |}
  else
    match castObjectId monitorId with
    | Some oid =>
        (post_monitores_monitorId_playlists monitorId body s).1 =
          match monitors s !! oid with
          | None => {| status := 404; payload := JMessage "Monitor não encontrado." |}
          | Some _ =>
              {| status := 500;
                 payload := JMessageError "Erro ao associar playlist" TypeError |}
          end
    | None =>
        js_length monitorId ≠ 12 →
        (post_monitores_monitorId_playlists monitorId body s).1 =
          {| status := 500;
             payload := JMessageError "Erro ao associar playlist" (CastError monitorId) |}
    end.
Proof.
  split; [apply link_changes_nothing|]. split; [apply link_never_answers_200|].
  destruct (falsy (field body "playlistId")) eqn:Hf.
  - unfold post_monitores_monitorId_playlists. by rewrite Hf.
  - destruct (castObjectId monitorId) as [oid|] eqn:Hc;
      [destruct (monitors s !! oid) as [m|] eqn:Hm|].
    + by rewrite (link_existing_monitor_throws _ _ _ oid m).
    + unfold post_monitores_monitorId_playlists. rewrite Hf. run. by rewrite Hc, Hm.
    + intros _. unfold post_monitores_monitorId_playlists. rewrite Hf. run.
      by rewrite Hc.
Qed.

Lemma link_answers_witness :
  status (post_monitores_monitorId_playlists "abc" {[ "playlistId" := id0 ]} s_screen).1
    = 500 ∧
  status (post_monitores_monitorId_playlists id0 {[ "playlistId" := id0 ]} s_screen).1
    = 404 ∧
  status (post_monitores_monitorId_playlists id1 {[ "playlistId" := VNumber "0" true ]}
            s_screen).1 = 400.
Proof.
  destruct s_screen_documents as (Hc0 & _ & _ & _ & Hm0 & _).
  pose proof (link_answers "abc" {[ "playlistId" := id0 ]} s_screen) as (_ & _ & Habc).
  pose proof (link_answers id0 {[ "playlistId" := id0 ]} s_screen) as (_ & _ & H0).
  pose proof (link_answers id1 {[ "playlistId" := VNumber "0" true ]} s_screen)
    as (_ & _ & H1).
  split; [|split].
  - change (falsy (field {[ "playlistId" := id0 ]} "playlistId")) with false in Habc.
    change (castObjectId "abc") with (@None N) in Habc. cbv beta iota in Habc.
    rewrite Habc; [done|by vm_compute].
  - change (falsy (field {[ "playlistId" := id0 ]} "playlistId")) with false in H0.
    rewrite Hc0 in H0. cbv beta iota in H0. by rewrite H0, Hm0.
  - change (falsy (field {[ "playlistId" := VNumber "0" true ]} "playlistId"))
      with true in H1.
    cbv beta iota in H1. by rewrite H1.
Defined.

(** X5.  The overwrite never changes the state, and its answer does not
    depend on the body of the request: 404 for the hexadecimal string of the
    id of no monitor, 200 with the monitor as it is stored for that of a
    monitor that exists, and 500 for a string that is no such hexadecimal
    string and is not 12 characters long. *)
Theorem relink_ignores_body (monitorId : string) (body : Body) (s : Server) :
  (put_monitores_monitorId_playlists monitorId body s).2 = s ∧
  match castObjectId monitorId with
  | Some oid =>
      (put_monitores_monitorId_playlists monitorId body s).1 =
        match monitors s !! oid with
        | None => {| status := 404; payload := Text "Monitor não encontrado" |}
        | Some m => {| status := 200; payload := JMonitor (oid, m) |}
        end
  | None =>
      js_length monitorId ≠ 12 →
      (put_monitores_monitorId_playlists monitorId body s).1 =
        {| status := 500; payload := Text "Erro ao atualizar monitor" |}
  end.
Proof.
  split; [apply relink_changes_nothing|].
  destruct (castObjectId monitorId) as [oid|] eqn:Hc;
    [destruct (monitors s !! oid) as [m|] eqn:Hm|].
  - by rewrite (relink_existing_monitor_unchanged _ _ _ _ _ Hc Hm).
  - unfold put_monitores_monitorId_playlists. run. by rewrite Hc, Hm.
  - intros _. unfold put_monitores_monitorId_playlists. run. by rewrite Hc.
Qed.

Lemma relink_ignores_body_witness :
  status (put_monitores_monitorId_playlists "abc" {[ "playlistId" := id0 ]} s_screen).1
    = 500 ∧
  (put_monitores_monitorId_playlists id1 ∅ s_screen).1 =
    {| status := 200;
       payload := JMonitor (1%N, {| mn_name := Some "Lobby Screen"; mn_playlist := None |}) |}.
Proof.
  destruct s_screen_documents as (_ & Hc1 & _ & _ & _ & Hm1).
  pose proof (relink_ignores_body "abc" {[ "playlistId" := id0 ]} s_screen) as [_ Habc].
  pose proof (relink_ignores_body id1 ∅ s_screen) as [_ H1].
  split.
  - change (castObjectId "abc") with (@None N) in Habc. cbv beta iota in Habc.
    rewrite Habc; [done|by vm_compute].
  - rewrite Hc1 in H1. cbv beta iota in H1. by rewrite H1, Hm1.
Defined.

(* ===================================================================== *)
(** ** Repeating and undoing requests *)
(* ===================================================================== *)

(** X6.  Deleting a playlist a second time gives the answer and the state
    of the first deletion, whatever the id. *)
Theorem delete_playlists_id_twice (id : string) (s : Server) :
  delete_playlists_id id (delete_playlists_id id s).2 = delete_playlists_id id s.
Proof.
  destruct (castObjectId id) as [oid|] eqn:Hc.
  - rewrite !(delete_playlists_id_cast _ _ _ Hc). simpl. by rewrite delete_delete_eq.
  - by rewrite !(delete_playlists_id_malformed _ _ Hc).
Qed.

(** X7.  Deleting a monitor a second time answers 404 and changes nothing
    more, for an id that is the hexadecimal string of an ObjectId. *)
Theorem delete_monitores_id_twice (id : string) (oid : ObjectId) (s : Server) :
  castObjectId id = Some oid →
  delete_monitores_id id (delete_monitores_id id s).2 =
    ({| status := 404; payload := JMessage "Monitor não encontrado" |},
     (delete_monitores_id id s).2).
Proof.
  intros Hc. apply (delete_monitores_id_absent _ _ oid Hc).
  destruct (monitors s !! oid) as [m|] eqn:Hm.
  - rewrite (delete_monitores_id_present _ _ _ _ Hc Hm). apply lookup_delete_eq.
  - by rewrite (delete_monitores_id_absent _ _ _ Hc Hm).
Qed.

Lemma delete_monitores_id_twice_witness :
  status (delete_monitores_id id1 s_screen).1 = 200 ∧
  status (delete_monitores_id id1 (delete_monitores_id id1 s_screen).2).1 = 404.
Proof.
  split; [by vm_compute|].
  by rewrite (delete_monitores_id_twice id1 1%N s_screen (proj1 (proj2 s_screen_documents))).
Defined.

Lemma filter_twice {A} (keep : A → bool) (l : list A) :
  List.filter keep (List.filter keep l) = List.filter keep l.
Proof.
  apply filter_keeps_all, Forall_forall. by intros x [_ Hx]%elem_of_filter_bool.
Qed.

(** X8.  Removing a media item a second time gives the answer and the state
    of the first removal, whatever the ids. *)
Theorem remove_media_twice (playlistId midiaId : string) (s : Server) :
  delete_playlists_playlistId_midias_midiaId playlistId midiaId
    (delete_playlists_playlistId_midias_midiaId playlistId midiaId s).2 =
  delete_playlists_playlistId_midias_midiaId playlistId midiaId s.
Proof.
  destruct (castObjectId playlistId) as [oid|] eqn:Hc;
    [destruct (playlists s !! oid) as [playlist|] eqn:Hp|].
  - rewrite (remove_media_found _ _ s _ _ Hc Hp). cbn [snd].
    erewrite remove_media_found; [|exact Hc|apply lookup_insert_eq].
    simpl. by rewrite filter_twice, insert_insert_eq.
  - by rewrite !(remove_media_not_found _ _ _ _ Hc Hp).
  - by rewrite !(remove_media_malformed _ _ _ Hc).
Qed.

(** X9.  In a consistent database, deleting by the hexadecimal string of
    the next id after a creation request for a monitor leaves the
    collections as they were before the creation.  When the name of the body
    casts, the deletion answers 200 with the monitor that was just created;
    when it does not cast, no monitor was created and the deletion answers
    404. *)
Theorem created_monitor_deleted (id : string) (body : Body) (s : Server) :
  consistent s → castObjectId id = Some (next_oid s) →
  monitors (delete_monitores_id id (post_monitores body s).2).2 = monitors s ∧
  playlists (delete_monitores_id id (post_monitores body s).2).2 = playlists s ∧
  (delete_monitores_id id (post_monitores body s).2).1 =
    match cast_String (field body "name") with
    | Some name =>
        {| status := 200;
           payload := JMonitorDeleted "Monitor excluído com sucesso"
                        (next_oid s, {| mn_name := name; mn_playlist := None |}) |}
    | None => {| status := 404; payload := JMessage "Monitor não encontrado" |}
    end.
Proof.
  intros [_ Hnew]%consistent_next_unused Hc. rewrite post_monitores_run.
  destruct (cast_String (field body "name")) as [name|]; cbn [snd].
  - erewrite delete_monitores_id_present; [|exact Hc|apply lookup_insert_eq].
    simpl. split; [|done]. by apply delete_insert_id.
  - by erewrite delete_monitores_id_absent; [|exact Hc|exact Hnew].
Qed.

Lemma created_monitor_deleted_witness :
  castObjectId "000000000000000000000004" = Some (next_oid s_media) ∧
  monitors (delete_monitores_id "000000000000000000000004"
              (post_monitores {[ "name" := "Hall Screen" ]} s_media).2).2 =
    monitors s_media ∧
  status (delete_monitores_id "000000000000000000000004"
            (post_monitores {[ "name" := VObject [] ]} s_media).2).1 = 404.
Proof.
  assert (Hc : castObjectId "000000000000000000000004" = Some (next_oid s_media))
    by (by vm_compute).
  split; [exact Hc|]. split.
  - apply (created_monitor_deleted _ {[ "name" := "Hall Screen" ]} _ consistent_s_media Hc).
  - destruct (created_monitor_deleted _ {[ "name" := VObject [] ]} _ consistent_s_media Hc)
      as (_ & _ & H).
    by rewrite H.
Defined.

(** X10.  In a consistent database, uploading one file to a playlist
    answers with the media list extended by one new item, and removing that
    item by the string of the id it was given gives back the media list, and
    the collections, from before the upload; the uploaded file stays on disk
    with its bytes. *)
Theorem upload_then_remove_restores
    (id : string) (oid : ObjectId) (playlist : Playlist) (now : N) (file : Part)
    (s : Server) :
  consistent s → castObjectId id = Some oid → playlists s !! oid = Some playlist →
  ∃ midia,
    (post_playlists_id_midias id [(now, file)] s).1 =
      {| status := 200; payload := JMidias (pl_midias playlist ++ [midia]) |} ∧
    uploaded (now, file) midia ∧
    let s1 := (post_playlists_id_midias id [(now, file)] s).2 in
    let r := delete_playlists_playlistId_midias_midiaId id (oid_toString (md_id midia)) s1 in
    r.1 = {| status := 200; payload := JMidias (pl_midias playlist) |} ∧
    playlists r.2 = playlists s ∧
    monitors r.2 = monitors s ∧
    disk r.2 !! (destination +:+ filename now file) = Some (Whole (bytes file)).
Proof.
  intros Hs Hc Hp.
  pose proof (media_ids_distinct _ (consistent_upload s Hs id [(now, file)]) oid) as Hnd.
  revert Hnd. rewrite (upload_found _ _ _ _ _ Hc Hp). cbn [snd fst playlists].
  rewrite lookup_insert_eq. intros Hnd. specialize (Hnd _ eq_refl). simpl in Hnd.
  eexists. split; [reflexivity|]. split; [done|]. cbv zeta.
  erewrite remove_media_found; [|exact Hc|apply lookup_insert_eq]. simpl.
  rewrite (filter_out_one _ (pl_midias playlist) _ []); [|done|exact Hnd].
  rewrite app_nil_r, insert_insert_eq. split; [done|]. split; [|split; [done|]].
  - apply insert_id. by destruct playlist.
  - pose proof (upload_array_whole [(now, file)] s) as Hw.
    rewrite Forall_singleton in Hw. apply Hw, NoDup_singleton.
Qed.

Lemma upload_then_remove_restores_witness :
  ∃ midia,
    (post_playlists_id_midias id0 [(1700000000002%N, a_png)] s_media).1 =
      {| status := 200; payload := JMidias ([a_item; b_item] ++ [midia]) |} ∧
    playlists
      (delete_playlists_playlistId_midias_midiaId id0 (oid_toString (md_id midia))
         (post_playlists_id_midias id0 [(1700000000002%N, a_png)] s_media).2).2 =
      playlists s_media.
Proof.
  destruct (upload_then_remove_restores id0 0%N
              {| pl_name := Some "Lobby"; pl_midias := [a_item; b_item] |}
              1700000000002 a_png s_media consistent_s_media
              (proj1 s_media_lobby) (proj2 s_media_lobby))
    as (midia & H1 & _ & _ & H2 & _).
  exists midia. split; [exact H1|exact H2].
Defined.

(** X11.  An upload request without files answers as a lookup of the
    playlist does and leaves the collections and the files as they were: 200
    with the media list as it is for the hexadecimal string of the id of a
    playlist, 404 for that of no playlist, and 500 for a string that is no
    such hexadecimal string and is not 12 characters long. *)
Theorem upload_without_files (id : string) (s : Server) :
  playlists (post_playlists_id_midias id [] s).2 = playlists s ∧
  monitors (post_playlists_id_midias id [] s).2 = monitors s ∧
  disk (post_playlists_id_midias id [] s).2 = disk s ∧
  match castObjectId id with
  | Some oid =>
      (post_playlists_id_midias id [] s).1 =
        match playlists s !! oid with
        | None => {| status := 404; payload := JMessage "Playlist não encontrada" |}
        | Some playlist => {| status := 200; payload := JMidias (pl_midias playlist) |}
        end
  | None =>
      js_length id ≠ 12 →
      (post_playlists_id_midias id [] s).1 =
        {| status := 500;
           payload := JMessageError "Erro ao fazer upload de mídia" (CastError id) |}
  end.
Proof.
  destruct (castObjectId id) as [oid|] eqn:Hc;
    [destruct (playlists s !! oid) as [playlist|] eqn:Hp|].
  - rewrite (upload_found _ _ _ _ _ Hc Hp). simpl.
    rewrite app_nil_r, insert_id; [done|]. by destruct playlist.
  - by rewrite (upload_not_found _ _ _ _ Hc Hp).
  - by rewrite (upload_malformed _ _ _ Hc).
Qed.

Lemma upload_without_files_witness :
  status (post_playlists_id_midias "abc" [] s_media).1 = 500 ∧
  (post_playlists_id_midias id0 [] s_media).1 =
    {| status := 200; payload := JMidias [a_item; b_item] |}.
Proof.
  pose proof (upload_without_files "abc" s_media) as (_ & _ & _ & Habc).
  pose proof (upload_without_files id0 s_media) as (_ & _ & _ & H0).
  split.
  - change (castObjectId "abc") with (@None N) in Habc. cbv beta iota in Habc.
    rewrite Habc; [done|by vm_compute].
  - rewrite (proj1 s_media_lobby) in H0. cbv beta iota in H0.
    by rewrite H0, (proj2 s_media_lobby).
Defined.

(* ===================================================================== *)
(** ** The upload directory *)
(* ===================================================================== *)




(* ===================================================================== *)
(** ** Storage names and original names *)
(* ===================================================================== *)

Lemma append_empty_r s : s +:+ "" = s.
Proof. induction s as [|c s IH]; [done|]. exact (f_equal (String c) IH). Qed.

Lemma list_ascii_of_string_app s t :
  list_ascii_of_string (s +:+ t) = list_ascii_of_string s ++ list_ascii_of_string t.
Proof. induction s as [|c s IH]; simpl; [done|]. by rewrite IH. Qed.

Lemma string_of_uint_no_slash d :
  "/"%char ∉ list_ascii_of_string (DecimalString.NilEmpty.string_of_uint d).
Proof.
  induction d; simpl; rewrite ?not_elem_of_cons; try (split; [discriminate|done]).
  apply not_elem_of_nil.
Qed.

Lemma until_slash_no_slash r : "/"%char ∉ until_slash r.
Proof.
  induction r as [|c r IH]; simpl; [apply not_elem_of_nil|].
  unfold is_slash. destruct (Ascii.eqb_spec c "/"%char) as [->|Hc];
    [apply not_elem_of_nil|].
  apply not_elem_of_cons. split; [congruence|done].
Qed.

Lemma split_dot_ext r ext pre : split_dot r = Some (ext, pre) → ext ⊆ r.
Proof.
  revert ext. induction r as [|c r IH]; intros ext; simpl; [done|].
  destruct (is_dot c).
  - intros [= <- <-]. apply list_subseteq_nil.
  - destruct (split_dot r) as [[ext' pre']|]; [|done].
    intros [= <- <-] x [->|Hx]%elem_of_cons; [by left|].
    right. by apply (IH ext').
Qed.

Lemma extname_no_slash path : "/"%char ∉ list_ascii_of_string (extname path).
Proof.
  unfold extname.
  destruct (split_dot (last_component_rev path)) as [[ext pre]|] eqn:Hs;
    [|apply not_elem_of_nil].
  assert ("/"%char ∉ list_ascii_of_string
            (String "."%char (string_of_list_ascii (reverse ext)))) as Hext.
  { simpl. rewrite list_ascii_of_string_of_list_ascii.
    apply not_elem_of_cons. split; [discriminate|].
    rewrite elem_of_reverse. intros Hin.
    apply (split_dot_ext _ _ _ Hs) in Hin.
    exact (until_slash_no_slash _ Hin). }
  destruct pre as [|c [|c' pre]]; [apply not_elem_of_nil| |done].
  destruct ext; [|done].
  destruct (is_dot c); [apply not_elem_of_nil|done].
Qed.

(** X13.  Whatever the original name of an upload, its storage name is not
    empty and has no path separator: the file is written directly in the
    upload directory. *)
Theorem filename_has_no_separator (now : N) (file : Part) :
  filename now file ≠ "" ∧
  "/"%char ∉ list_ascii_of_string (filename now file).
Proof.
  unfold filename, dec. split.
  - destruct now as [|p]; [done|]. simpl.
    pose proof (DecimalPos.Unsigned.to_uint_nonnil p) as Hn.
    by destruct (Pos.to_uint p).
  - rewrite list_ascii_of_string_app, elem_of_app.
    intros [H|H]; [exact (string_of_uint_no_slash _ H)|exact (extname_no_slash _ H)].
Qed.

Lemma drop_slashes_plain r : "/"%char ∉ r → drop_slashes r = r.
Proof.
  destruct r as [|c r]; simpl; [done|]. intros [Hc _]%not_elem_of_cons.
  unfold is_slash. by destruct (Ascii.eqb_spec c "/"%char).
Qed.

Lemma until_slash_plain r : "/"%char ∉ r → until_slash r = r.
Proof.
  induction r as [|c r IH]; simpl; [done|]. intros [Hc Hr]%not_elem_of_cons.
  unfold is_slash. destruct (Ascii.eqb_spec c "/"%char); [done|]. by rewrite IH.
Qed.

Lemma split_dot_at ext pre :
  "."%char ∉ ext → split_dot (ext ++ "."%char :: pre) = Some (ext, pre).
Proof.
  induction ext as [|c ext IH]; simpl; [done|]. intros [Hc He]%not_elem_of_cons.
  unfold is_dot. destruct (Ascii.eqb_spec c "."%char); [done|]. by rewrite IH.
Qed.

Lemma split_dot_none r : "."%char ∉ r → split_dot r = None.
Proof.
  induction r as [|c r IH]; simpl; [done|]. intros [Hc Hr]%not_elem_of_cons.
  unfold is_dot. destruct (Ascii.eqb_spec c "."%char); [done|]. by rewrite IH.
Qed.

(** X14.  An original name made of a stem, a dot and a last part without
    dots keeps that last part as the extension of the storage name: the stem
    is not empty, nothing has a path separator, and the name is not [..]. *)
Theorem filename_keeps_extension
    (now : N) (stem ext : list ascii) (content : string) :
  stem ≠ [] → "/"%char ∉ stem → "/"%char ∉ ext → "."%char ∉ ext →
  ¬ (stem = ["."%char] ∧ ext = []) →
  filename now {| originalname := string_of_list_ascii (stem ++ "."%char :: ext);
                  bytes := content |} =
    dec now +:+ String "."%char (string_of_list_ascii ext).
Proof.
  intros Hstem Hs1 Hs2 Hdot Hnot. unfold filename. f_equal. simpl.
  unfold extname, last_component_rev.
  rewrite list_ascii_of_string_of_list_ascii, reverse_app, reverse_cons, <- app_assoc.
  simpl.
  assert ("/"%char ∉ reverse ext ++ "."%char :: reverse stem) as Hplain.
  { rewrite elem_of_app, elem_of_cons, !elem_of_reverse.
    intros [?|[?|?]]; done. }
  rewrite (drop_slashes_plain _ Hplain), (until_slash_plain _ Hplain).
  rewrite split_dot_at; [|by rewrite elem_of_reverse].
  destruct (reverse stem) as [|c [|c' pre]] eqn:Hrev.
  - apply (f_equal reverse) in Hrev. rewrite reverse_involutive in Hrev. done.
  - destruct (reverse ext) as [|e r] eqn:Hre.
    + apply (f_equal reverse) in Hrev, Hre. rewrite reverse_involutive in Hrev, Hre.
      cbn in Hrev, Hre. subst stem ext.
      unfold is_dot. destruct (Ascii.eqb_spec c "."%char) as [->|_]; [|done].
      by destruct Hnot.
    + by rewrite <- Hre, reverse_involutive.
  - by rewrite reverse_involutive.
Qed.

Lemma filename_keeps_extension_witness :
  filename 1700000000000
    {| originalname := "photo.tar.gz"; bytes := "" |} = "1700000000000.gz".
Proof.
  apply (filename_keeps_extension 1700000000000
           (list_ascii_of_string "photo.tar") (list_ascii_of_string "gz") "").
  - discriminate.
  - apply (bool_decide_unpack _). by vm_compute.
  - apply (bool_decide_unpack _). by vm_compute.
  - apply (bool_decide_unpack _). by vm_compute.
  - intros [_ H]. discriminate H.
Defined.

(** X15.  An original name without a dot, and one whose only dot is its
    first character, give a storage name without extension: the decimal
    millisecond count alone (no part of the name has a path separator). *)
Theorem filename_without_extension (now : N) (name : list ascii) (content : string) :
  "/"%char ∉ name → "."%char ∉ name →
  filename now {| originalname := string_of_list_ascii name; bytes := content |} = dec now ∧
  filename now {| originalname := string_of_list_ascii ("."%char :: name);
                  bytes := content |} = dec now.
Proof.
  intros Hs Hd. unfold filename. cbn [originalname].
  split.
  - assert (extname (string_of_list_ascii name) = "") as ->; [|apply append_empty_r].
    unfold extname, last_component_rev. rewrite list_ascii_of_string_of_list_ascii.
    assert ("/"%char ∉ reverse name) as Hplain by by rewrite elem_of_reverse.
    rewrite (drop_slashes_plain _ Hplain), (until_slash_plain _ Hplain).
    rewrite split_dot_none; [done|by rewrite elem_of_reverse].
  - assert (extname (string_of_list_ascii ("."%char :: name)) = "") as ->; [|apply append_empty_r].
    unfold extname, last_component_rev.
    rewrite list_ascii_of_string_of_list_ascii, reverse_cons.
    assert ("/"%char ∉ reverse name ++ ["."%char]) as Hplain.
    { rewrite elem_of_app, elem_of_reverse, list_elem_of_singleton. intros [?|?]; done. }
    rewrite (drop_slashes_plain _ Hplain), (until_slash_plain _ Hplain).
    rewrite split_dot_at; [done|by rewrite elem_of_reverse].
Qed.

Lemma filename_without_extension_witness :
  filename 1700000000000 {| originalname := "README"; bytes := "" |} = "1700000000000" ∧
  filename 1700000000000 {| originalname := ".env"; bytes := "" |} = "1700000000000".
Proof.
  split.
  - apply (filename_without_extension 1700000000000 (list_ascii_of_string "README") "");
      apply (bool_decide_unpack _); by vm_compute.
  - apply (filename_without_extension 1700000000000 (list_ascii_of_string "env") "");
      apply (bool_decide_unpack _); by vm_compute.
Defined.

(* ===================================================================== *)
(** ** Listings and histories *)
(* ===================================================================== *)

(** X16.  After the deletion of a playlist, by the hexadecimal string of an
    ObjectId, the listing has every other playlist that was stored and no
    playlist with that id. *)
Theorem deleted_playlist_is_not_listed (id : string) (oid : ObjectId) (s : Server) :
  castObjectId id = Some oid →
  ∃ listing,
    (get_playlists (delete_playlists_id id s).2).1 =
      {| list_status := 200; list_payload := JPlaylists listing |} ∧
    ∀ oid' p, (oid', p) ∈ listing ↔ oid' ≠ oid ∧ playlists s !! oid' = Some p.
Proof.
  intros Hc. rewrite (delete_playlists_id_cast _ _ _ Hc), get_playlists_run. simpl.
  eexists. split; [done|]. intros oid' p.
  rewrite elem_of_map_to_list, lookup_delete_Some.
  split; intros [H1 H2]; (split; [congruence|done]).
Qed.

Lemma deleted_playlist_is_not_listed_witness :
  (get_playlists (delete_playlists_id id0 s_media).2).1 =
    {| list_status := 200; list_payload := JPlaylists [] |}.
Proof.
  destruct (deleted_playlist_is_not_listed id0 0%N s_media (proj1 s_media_lobby))
    as (listing & -> & Hl).
  destruct listing as [|[oid p] listing]; [done|].
  destruct (proj1 (Hl oid p) (list_elem_of_here _ _)) as [Hne Hp].
  exfalso. apply Hne. revert Hp. clear.
  destruct (decide (oid = 0%N)) as [->|Hne]; [done|].
  intros Hp. assert (playlists s_media !! oid = None) as Hnone; [|congruence].
  change (playlists s_media) with (<[0%N := {| pl_name := Some "Lobby";
            pl_midias := [a_item; b_item] |}]> (∅ : gmap N Playlist)).
  by rewrite lookup_insert_ne.
Defined.

Lemma served_media_ids_distinct_witness :
  NoDup (md_id <$> [a_item; b_item]).
Proof.
  apply (served_media_ids_distinct
           [POST_playlists {[ "name" := "Lobby" ]};
            POST_monitores {[ "name" := "Lobby Screen" ]};
            POST_playlists_id_midias id0
              [(1700000000000%N, a_png); (1700000000001%N, b_png)]]
           0%N {| pl_name := Some "Lobby"; pl_midias := [a_item; b_item] |}).
  by vm_compute.
Defined.

Lemma served_monitors_unlinked_witness :
  mn_playlist {| mn_name := Some "Lobby Screen"; mn_playlist := None |} = None ∧
  monitors (serve [POST_playlists {[ "name" := "Lobby" ]};
                   POST_monitores {[ "name" := "Lobby Screen" ]};
                   POST_monitores_monitorId_playlists id1 {[ "playlistId" := id0 ]};
                   PUT_monitores_monitorId_playlists id1 {[ "playlistId" := id0 ]}]
              empty_server) !! 1%N =
    Some {| mn_name := Some "Lobby Screen"; mn_playlist := None |}.
Proof.
  assert (monitors (serve [POST_playlists {[ "name" := "Lobby" ]};
                   POST_monitores {[ "name" := "Lobby Screen" ]};
                   POST_monitores_monitorId_playlists id1 {[ "playlistId" := id0 ]};
                   PUT_monitores_monitorId_playlists id1 {[ "playlistId" := id0 ]}]
              empty_server) !! 1%N =
    Some {| mn_name := Some "Lobby Screen"; mn_playlist := None |}) as H
    by by vm_compute.
  split; [|exact H]. exact (served_monitors_unlinked _ _ _ H).
Defined.
